(** * The screening engine of the akshare example screeners

    A shallow embedding of [examples/stock_screener_unified.py] and
    [examples/stock_screener_web.py]: the indicator layer (pandas
    exponentially weighted means, MACD, rolling mean), the daily-to-weekly
    resampling of the fallback source, the weekly screening pipeline and
    the background job orchestrator with its shared state dictionaries.

    Numbers.  The Python code computes with float64.  Here a number is
    an exact rational ([Q]); rounding error and overflow are outside the
    model.  "Not a number" appears where the code itself tests for it or
    drops it: the rolling mean before its window is full and the
    aggregates of an empty resampling bin, both modelled as [option Q].
    The two quotients of the screening pipeline are float64 divisions,
    which do not raise: their results are modelled with the infinities
    and the NaN of a division by zero ([float64]; the model has one
    zero, the positive one).  Numeric statements are up to [Qeq]
    ([==]). *)

From Stdlib Require Import QArith Qround Lia.
From stdpp Require Import gmap strings list fin_maps pretty sorting.

Local Open Scope Q_scope.

(** ** Comparisons on rationals as the boolean tests of the code *)

Definition Qlt_bool (x y : Q) : bool := negb (Qle_bool y x).

Definition Qmax_list (x : Q) (xs : list Q) : Q :=
  fold_left (fun m y => if Qle_bool m y then y else m) xs x.

(** ** pandas: the library operations the screeners call *)

Module Pandas.

(** [span] is turned into the smoothing factor as pandas documents it:
    alpha = 2 / (span + 1), for span >= 1. *)
Definition alpha (span : positive) : Q := 2 / (inject_Z (Z.pos span) + 1).

(** [Series.ewm(span=span, adjust=False).mean()].  With [adjust=False]
    pandas computes y_0 = x_0 and y_t = (1 - alpha) y_(t-1) + alpha x_t.
    [ewm_from a prev xs] continues the recursion after the value [prev].
    Each mean is kept as a fraction in lowest terms ([Qred]), which
    does not change its value. *)
Fixpoint ewm_from (a prev : Q) (xs : list Q) : list Q :=
  match xs with
  | [] => []
  | x :: xs' =>
      let y := Qred ((1 - a) * prev + a * x) in
      y :: ewm_from a y xs'
  end.

Definition ewm_mean (span : positive) (xs : list Q) : list Q :=
  match xs with
  | [] => []
  | x0 :: xs' => x0 :: ewm_from (alpha span) x0 xs'
  end.

(** Arithmetic between two series of the same index, and with a scalar. *)
Definition series_sub (xs ys : list Q) : list Q := zip_with Qminus xs ys.
Definition series_scale (k : Q) (xs : list Q) : list Q := map (Qmult k) xs.

(** [df.tail(n)] *)
Definition tail {A} (n : nat) (l : list A) : list A :=
  drop (length l - n) l.

(** [Series.max()] of a series without missing values; [None] is the
    NaN pandas returns for an empty series. *)
Definition series_max (xs : list Q) : option Q :=
  match xs with
  | [] => None
  | x :: xs' => Some (Qmax_list x xs')
  end.

Definition series_sum (xs : list Q) : Q := fold_left Qplus xs 0.

(** [Series.rolling(window=w).mean()]: the arithmetic mean of the
    trailing [w] observations, NaN ([None]) for the first [w - 1]. *)
Definition window_mean (w : nat) (seen : list Q) : option Q :=
  if (length seen <? w)%nat then None
  else Some (series_sum (tail w seen) / inject_Z (Z.of_nat w)).

Definition rolling_mean (w : nat) (xs : list Q) : list (option Q) :=
  map (fun i => window_mean w (take (S i) xs)) (seq 0 (length xs)).

End Pandas.

(** ** The indicator layer *)

(** The columns [calculate_macd] adds to the frame. *)
Record macd_cols := MacdCols {
  col_DIF : list Q;
  col_DEA : list Q;
  col_MACD : list Q   (* the column 'MACD柱' *)
}.

(** [calculate_macd(df, fast=12, slow=26, signal=9)], the same text in
    both screeners; [close] is the column df['收盘']. *)
Definition calculate_macd (fast slow signal : positive) (close : list Q)
  : macd_cols :=
  let ema_fast := Pandas.ewm_mean fast close in
  let ema_slow := Pandas.ewm_mean slow close in
  let dif := Pandas.series_sub ema_fast ema_slow in
  let dea := Pandas.ewm_mean signal dif in
  {| col_DIF := dif;
     col_DEA := dea;
     col_MACD := Pandas.series_scale 2 (Pandas.series_sub dif dea) |}.

(** ** The recurrences as the specification words them *)

Module Reference.

(** ema[0] = price[0], ema[t] = alpha price[t] + (1 - alpha) ema[t-1]. *)
Fixpoint ema (a : Q) (price : nat -> Q) (t : nat) : Q :=
  match t with
  | O => price O
  | S t' => a * price t + (1 - a) * ema a price t'
  end.

Definition dif (fast slow : positive) (price : nat -> Q) (t : nat) : Q :=
  ema (Pandas.alpha fast) price t - ema (Pandas.alpha slow) price t.

Definition dea (fast slow signal : positive) (price : nat -> Q) (t : nat) : Q :=
  ema (Pandas.alpha signal) (dif fast slow price) t.

Definition histogram (fast slow signal : positive) (price : nat -> Q)
    (t : nat) : Q :=
  2 * (dif fast slow price t - dea fast slow signal price t).

End Reference.

(** The close series of the golden-vector fixture. *)
Definition golden_closes : list Q := [10; 11; 12; 11; 10; 9; 10; 11; 12; 13].

(** ** Frames *)

(** A row of a weekly (or monthly) price frame, columns
    日期, 开盘, 最高, 最低, 收盘, 成交量.  A date is a day number, day 0
    being Thursday 1970-01-01. *)
Record bar := Bar {
  b_date : Z;
  b_open : Q;
  b_high : Q;
  b_low : Q;
  b_close : Q;
  b_volume : Q
}.

(** A row of the daily frame of the fallback source, columns
    date, open, close, high, low, amount.  [d_date] is the cell after
    [pd.to_datetime(..., errors="coerce")]: [None] is NaT. *)
Record daily := Daily {
  d_date : option Z;
  d_open : Q;
  d_close : Q;
  d_high : Q;
  d_low : Q;
  d_amount : Q
}.

Definition Qmin_list (x : Q) (xs : list Q) : Q :=
  fold_left (fun m y => if Qle_bool y m then y else m) xs x.

Module Resample.

(** Monday is 0, Friday is 4. *)
Definition weekday (d : Z) : Z := ((d + 3) mod 7)%Z.

(** The label of the "W-FRI" bin of a day: the Friday on or after it.
    A bin holds the seven days that end on its Friday. *)
Definition week_end (d : Z) : Z := (d + (4 - weekday d) mod 7)%Z.

(** [dropna(subset=["date"]).set_index("date")] *)
Definition set_index (df : list daily) : list (Z * daily) :=
  omap (fun r => d ← d_date r; Some (d, r)) df.

(** [sort_index()], as a stable insertion sort on the date. *)
Fixpoint insert_by_date (x : Z * daily) (l : list (Z * daily))
  : list (Z * daily) :=
  match l with
  | [] => [x]
  | y :: l' =>
      if (fst x <=? fst y)%Z then x :: y :: l' else y :: insert_by_date x l'
  end.

Definition sort_index (df : list (Z * daily)) : list (Z * daily) :=
  foldr insert_by_date [] df.

(** The bin labels pandas lays out: every Friday from the bin of the
    first row to the bin of the last row. *)
Definition bins (df : list (Z * daily)) : list Z :=
  match df, last df with
  | (d0, _) :: _, Some (d1, _) =>
      let f0 := week_end d0 in
      let f1 := week_end d1 in
      map (fun i => (f0 + 7 * Z.of_nat i)%Z)
          (seq 0 (Z.to_nat ((f1 - f0) / 7 + 1)))
  | _, _ => []
  end.

(** A row of the aggregated frame.  "first", "max", "min" and "last"
    of an empty bin are NaN ([None]); "sum" of an empty bin is 0. *)
Record agg_row := AggRow {
  a_date : Z;
  a_open : option Q;
  a_high : option Q;
  a_low : option Q;
  a_close : option Q;
  a_amount : Q
}.

Definition group (f : Z) (df : list (Z * daily)) : list daily :=
  map snd (filter (fun x => week_end (fst x) = f) df).

Definition agg_first (xs : list Q) : option Q := head xs.
Definition agg_last (xs : list Q) : option Q := last xs.
Definition agg_max (xs : list Q) : option Q :=
  match xs with [] => None | x :: xs' => Some (Qmax_list x xs') end.
Definition agg_min (xs : list Q) : option Q :=
  match xs with [] => None | x :: xs' => Some (Qmin_list x xs') end.
Definition agg_sum (xs : list Q) : Q := fold_left Qplus xs 0.

(** [.resample("W-FRI").agg({"open": "first", "high": "max",
    "low": "min", "close": "last", "amount": "sum"})] *)
Definition agg (df : list (Z * daily)) : list agg_row :=
  map (fun f =>
         let g := group f df in
         {| a_date := f;
            a_open := agg_first (map d_open g);
            a_high := agg_max (map d_high g);
            a_low := agg_min (map d_low g);
            a_close := agg_last (map d_close g);
            a_amount := agg_sum (map d_amount g) |})
      (bins df).

(** [.dropna().reset_index()], then the renaming of the columns to
    日期, 开盘, 最高, 最低, 收盘, 成交量. *)
Definition dropna_rename (rows : list agg_row) : list bar :=
  omap (fun r =>
          o ← a_open r; h ← a_high r; l ← a_low r; c ← a_close r;
          Some {| b_date := a_date r; b_open := o; b_high := h;
                  b_low := l; b_close := c; b_volume := a_amount r |})
       rows.

(** The whole aggregation of both screeners, from the daily frame of
    the fallback source to the weekly frame. *)
Definition weekly (df_daily : list daily) : list bar :=
  dropna_rename (agg (sort_index (set_index df_daily))).

(** The same aggregation as the specification words it: the weekly
    frame without its trailing group when that group is incomplete,
    that is when the series stops before the Friday that closes it. *)
Definition trailing_incomplete (df_daily : list daily) (w : bar) : bool :=
  match last (sort_index (set_index df_daily)) with
  | Some (d, _) => bool_decide (d < b_date w)%Z
  | None => false
  end.

Definition weekly_spec (df_daily : list daily) : list bar :=
  let ws := weekly df_daily in
  match last ws with
  | Some w =>
      if trailing_incomplete df_daily w then take (length ws - 1) ws else ws
  | None => ws
  end.

End Resample.

Definition mk_daily (d : Z) (o c h l a : Q) : daily :=
  {| d_date := Some d; d_open := o; d_close := c; d_high := h;
     d_low := l; d_amount := a |}.

(** Ten trading days, Monday 2024-01-01 (day 19723) to Friday 2024-01-12. *)
Definition ten_days : list daily :=
  [ mk_daily 19723 10 11 12 9 100;
    mk_daily 19724 11 12 13 10 110;
    mk_daily 19725 12 11 14 10 120;
    mk_daily 19726 11 13 15 11 130;
    mk_daily 19727 13 14 16 12 140;
    mk_daily 19730 14 13 15 12 150;
    mk_daily 19731 13 12 14 11 160;
    mk_daily 19732 12 15 17 8 170;
    mk_daily 19733 15 16 18 14 180;
    mk_daily 19734 16 17 19 15 190 ].

(** ** Python values, exceptions and rounding *)

(** A cell of a result dictionary; [VNaN] is a float that is not a
    number and [VInf] an infinite one. *)
Inductive value :=
| VStr (s : string)
| VNum (q : Q)
| VNaN
| VInf (negative : bool)
| VBool (b : bool).

(** A dictionary literal, in insertion order. *)
Definition record : Type := list (string * value).

Definition record_get (key : string) (r : record) : option value :=
  (fun x => snd (snd x)) <$> list_find (fun kv => fst kv = key) r.

(** What a call returns: a value, or an exception with its [str(e)]. *)
Inductive outcome (A : Type) :=
| Ok (a : A)
| Raise (e : string).
Arguments Ok {A} a.
Arguments Raise {A} e.

(** [round(x, ndigits)]: to the nearest multiple of 10^-ndigits, ties to
    the even one. *)
Definition round_half_even (q : Q) : Z :=
  let f := Qfloor q in
  let r := q - inject_Z f in
  if Qlt_bool r (1 # 2) then f
  else if Qlt_bool (1 # 2) r then (f + 1)%Z
  else if Z.even f then f else (f + 1)%Z.

Definition py_round (q : Q) (ndigits : nat) : Q :=
  inject_Z (round_half_even (q * inject_Z (10 ^ Z.of_nat ndigits)))
  / inject_Z (10 ^ Z.of_nat ndigits).

(** A test on a float that may be NaN: every comparison with NaN is false. *)
Definition nan_false (test : Q -> bool) (x : option Q) : bool :=
  match x with
  | Some q => test q
  | None => false
  end.

Definition num (x : option Q) : value :=
  match x with
  | Some q => VNum q
  | None => VNaN
  end.

(** A float64 where a division may have made it: a number, an infinity
    or NaN. *)
Inductive float64 :=
| Finite (q : Q)
| Infinity (negative : bool)
| NaN.

(** [x / y] on two float64 scalars of numpy: a division by zero gives an
    infinity with the sign of [x], or NaN for 0 / 0, and a warning, not
    an exception. *)
Definition fdiv (x y : Q) : float64 :=
  if Qeq_bool y 0 then
    if Qlt_bool 0 x then Infinity false
    else if Qlt_bool x 0 then Infinity true
    else NaN
  else Finite (x / y).

(** [x < y] and [x >= y] with a number on the right, and [x < y] between
    two floats; every comparison with NaN is false. *)
Definition flt (x : float64) (y : Q) : bool :=
  match x with
  | Finite q => Qlt_bool q y
  | Infinity negative => negative
  | NaN => false
  end.

Definition fge (x : float64) (y : Q) : bool :=
  match x with
  | Finite q => Qle_bool y q
  | Infinity negative => negb negative
  | NaN => false
  end.

Definition float_lt (x y : float64) : bool :=
  match x, y with
  | Finite p, Finite q => Qlt_bool p q
  | Finite _, Infinity negative => negb negative
  | Infinity negative, Finite _ => negative
  | Infinity n1, Infinity n2 => n1 && negb n2
  | _, _ => false
  end.

Definition is_nan (x : float64) : bool :=
  match x with NaN => true | _ => false end.

(** [a - x], [x * k] for a positive number [k], and [round(x, ndigits)],
    which leaves an infinity and NaN as they are. *)
Definition fsub_from (a : Q) (x : float64) : float64 :=
  match x with
  | Finite q => Finite (a - q)
  | Infinity negative => Infinity (negb negative)
  | NaN => NaN
  end.

Definition fscale (x : float64) (k : Q) : float64 :=
  match x with
  | Finite q => Finite (q * k)
  | other => other
  end.

Definition fround (x : float64) (ndigits : nat) : float64 :=
  match x with
  | Finite q => Finite (py_round q ndigits)
  | other => other
  end.

Definition cell (x : float64) : value :=
  match x with
  | Finite q => VNum q
  | Infinity negative => VInf negative
  | NaN => VNaN
  end.

(** ** The frame the weekly pipeline works on *)

(** A row of the frame after [calculate_macd] and the MA55 column:
    收盘, DIF, DEA, MACD柱, MA55. *)
Record row := Row {
  r_close : Q;
  r_DIF : Q;
  r_DEA : Q;
  r_MACD : Q;
  r_MA55 : option Q
}.

Definition zip_ap {A B} (fs : list (A -> B)) (xs : list A) : list B :=
  zip_with (fun f x => f x) fs xs.

(** [df = calculate_macd(df.copy())] and
    [df['MA55'] = df['收盘'].rolling(window=55).mean()] *)
Definition indicator_frame (df : list bar) : list row :=
  let close := map b_close df in
  let m := calculate_macd 12 26 9 close in
  let ma55 := Pandas.rolling_mean 55 close in
  zip_ap (zip_ap (zip_ap (zip_ap (map Row close) (col_DIF m)) (col_DEA m))
                 (col_MACD m)) ma55.

(** The threshold bundle of a screening mode. *)
Record mode_params := ModeParams {
  p_name : string;
  ma_min : Q;
  ma_max : Q;
  history_dea : Q;
  pullback : Q;
  dea_min : Q;
  dea_max : Q
}.

Definition weekly_modes : list (string * mode_params) :=
  [ ("strict",
     {| p_name := "严格模式"; ma_min := 0; ma_max := 0.08;
        history_dea := 0.3; pullback := 0.3; dea_min := 0; dea_max := 0.5 |});
    ("default",
     {| p_name := "默认模式"; ma_min := -0.05; ma_max := 0.10;
        history_dea := 0.1; pullback := 0.5; dea_min := 0; dea_max := 1.0 |});
    ("loose",
     {| p_name := "宽松模式"; ma_min := -0.10; ma_max := 0.20;
        history_dea := 0.05; pullback := 0.7; dea_min := -0.2;
        dea_max := 1.5 |}) ].

(** [df.iloc[-1]] and [df.iloc[-2] if len(df) >= 2 else None] *)
Definition iloc_last {A} (df : list A) : outcome A :=
  match last df with
  | Some r => Ok r
  | None => Raise "single positional indexer is out-of-bounds"
  end.

Definition iloc_prev {A} (df : list A) : option A :=
  if (2 <=? length df)%nat then df !! (length df - 2)%nat else None.

(** [df.tail(100)['DEA'].max()] *)
Definition max_dea_100w (df : list row) : option Q :=
  Pandas.series_max (map r_DEA (Pandas.tail 100 df)).

(** ** What the screeners get from outside *)

(** A price frame as a source returns it.  [NonNumeric n] is a frame of
    [n] rows whose cells are not all numbers: [len] works on it, the
    indicator computation raises. *)
Inductive frame :=
| Numeric (rows : list bar)
| NonNumeric (n : nat).

Definition frame_len (df : frame) : nat :=
  match df with
  | Numeric rows => length rows
  | NonNumeric n => n
  end.

Inductive em_reply := EmRaise (e : string) | EmNone | EmFrame (df : frame).
Inductive tx_reply := TxRaise | TxNone | TxDaily (df : list daily).

(** The valuation facts of a symbol after the parsing of the provider's
    table: market capitalisation in 亿 and price-to-book ratio. *)
Inductive fund_reply :=
| FundRaise
| FundEmpty
| FundFacts (market_cap : Q) (pb_ratio : option Q).

Definition stock : Type := string * string.   (* 代码, 名称 *)

(** The collaborators: the akshare calls, the sampler, the clock and the
    formatting of a float.  A reply depends on the symbol (and on the
    attempt where the code retries), not on the moment of the call.
    [sorted_nan reverse keyed] is the list [sorted] returns for records
    of which one has the key NaN: [<] is no order on such keys, and what
    comes out is left to the interpreter's sorting routine. *)
Record env := Env {
  stock_info_a_code_name : outcome (list stock);
  sample : Q -> list stock -> list stock;
  today : string;
  stock_zh_a_hist_weekly : string -> em_reply;
  stock_zh_a_hist_tx : string -> nat -> tx_reply;
  stock_individual_info_em : string -> nat -> fund_reply;
  calculate_beta : string -> option Q;
  get_monthly_data_tab2 : string -> option frame;
  stock_zh_index_hist_monthly : em_reply;
  float_str : Q -> string;
  sorted_nan : bool -> list (float64 * record) -> list record
}.

(** [str(e)] of the [KeyError] a dictionary lookup raises. *)
Definition KeyError (key : string) : string := "'" +:+ key +:+ "'".

(** [calculate_macd(df.copy())] with the MA55 column, on a frame as
    fetched. *)
Definition indicators (df : frame) : outcome (list row) :=
  match df with
  | Numeric rows => Ok (indicator_frame rows)
  | NonNumeric _ => Raise "No numeric types to aggregate"
  end.

(** ** stock_screener_web.py: the weekly pipeline *)

Module Web.

Definition MODES : gmap string mode_params := list_to_map weekly_modes.

(** The body of [screen_stock] from [current = df.iloc[-1]] on: the
    chain of tests on the indicator frame. *)
Definition screen_frame (params : mode_params) (golden_only : bool)
    (symbol name : string) (df : list row)
  : outcome (option record * string) :=
  match iloc_last df with
  | Raise e => Raise e
  | Ok current =>
    let prev := iloc_prev df in
    let close := r_close current in
    let dea := r_DEA current in
    let dif := r_DIF current in
    let macd := r_MACD current in
    let prev_macd := match prev with Some p => r_MACD p | None => 0 end in
    match r_MA55 current with
    | None => Ok (None, "no_ma")
    | Some ma55 =>
      let deviation := fdiv (close - ma55) ma55 in
      if flt deviation (ma_min params) then Ok (None, "below_ma")
      else if fge deviation (ma_max params) then Ok (None, "too_far")
      else
        let max_dea := max_dea_100w df in
        if nan_false (fun m => Qle_bool m (history_dea params)) max_dea
        then Ok (None, "low_history")
        else if nan_false (fun m => Qle_bool (pullback params * m) dea) max_dea
        then Ok (None, "no_pullback")
        else if Qle_bool dea (dea_min params) || Qle_bool (dea_max params) dea
        then Ok (None, "dea_range")
        else
          let is_golden := Qlt_bool dea dif in
          let is_green_shrink := Qlt_bool prev_macd macd && Qlt_bool macd 0 in
          let signal :=
            if is_golden then "金叉"
            else if is_green_shrink then "绿柱缩短"
            else "待金叉" in
          if golden_only && negb is_golden then Ok (None, "no_golden")
          else
            let macd_status :=
              if Qlt_bool 0 macd && Qle_bool prev_macd 0 then "翻红"
              else if Qlt_bool prev_macd macd
                   then (if Qlt_bool 0 macd then "红柱放大" else "绿柱缩短")
                   else (if Qlt_bool 0 macd then "红柱缩短" else "绿柱放大") in
            Ok (Some
                  [ ("代码", VStr symbol); ("名称", VStr name);
                    ("收盘价", VNum (py_round close 2));
                    ("MA55", VNum (py_round ma55 2));
                    ("偏离度%", cell (fround (fscale deviation 100) 2));
                    ("DEA", VNum (py_round dea 4));
                    ("DIF", VNum (py_round dif 4));
                    ("历史DEA", num ((fun m => py_round m 4) <$> max_dea));
                    ("回落比%",
                     match max_dea with
                     | Some m =>
                         cell (fround (fscale (fsub_from 1 (fdiv dea m)) 100) 1)
                     | None => VNaN
                     end);
                    ("信号", VStr signal);
                    ("MACD", VStr macd_status) ],
                "matched")
    end
  end.

(** [_fetch_weekly_eastmoney] and [_fetch_weekly_tencent]: a source's
    frame, [None] when it has no rows, or the exception of the call.  The
    daily frame of the fallback source is aggregated to weeks. *)
Definition _fetch_weekly_eastmoney (reply : em_reply) : outcome (option frame) :=
  match reply with
  | EmRaise e => Raise e
  | EmNone => Ok None
  | EmFrame df => if (frame_len df =? 0)%nat then Ok None else Ok (Some df)
  end.

Definition _fetch_weekly_tencent (reply : tx_reply) : outcome (option frame) :=
  match reply with
  | TxRaise => Raise "RemoteDisconnected"
  | TxNone | TxDaily [] => Ok None
  | TxDaily df_daily => Ok (Some (Numeric (Resample.weekly df_daily)))
  end.

(** [get_weekly_data(symbol, start_date, end_date)]: the frame, and the
    entry "eastmoney_ok" of [DATA_SOURCE_HEALTH] after the call.  The
    writes to the display fields of [STATE] are left out. *)
Fixpoint tencent_fallback (E : env) (symbol : string) (retries : list nat)
  : option frame :=
  match retries with
  | [] => None
  | retry :: rest =>
      match _fetch_weekly_tencent (stock_zh_a_hist_tx E symbol retry) with
      | Ok (Some df) =>
          if (55 <=? frame_len df)%nat then Some df
          else tencent_fallback E symbol rest
      | Ok None | Raise _ => tencent_fallback E symbol rest
      end
  end.

Definition get_weekly_data (E : env) (symbol : string) (health : option bool)
  : option frame * option bool :=
  let first :=
    if bool_decide (health ≠ Some false) then
      match _fetch_weekly_eastmoney (stock_zh_a_hist_weekly E symbol) with
      | Raise _ => (None, Some false)
      | Ok (Some df) =>
          if (55 <=? frame_len df)%nat then (Some df, Some true)
          else (None, health)
      | Ok None => (None, health)
      end
    else (None, health) in
  match first with
  | (Some df, h) => (Some df, h)
  | (None, h) => (tencent_fallback E symbol [0; 1]%nat, h)
  end.

(** [screen_stock(symbol, name, end_date, mode, golden_only)].  The mode
    lookup stands before the [try], so an unknown mode raises out of the
    function; anything raised inside the [try] is turned into the status
    'error'. *)
Definition screen_stock (E : env) (symbol name : string) (mode : string)
    (golden_only : bool) (health : option bool)
  : outcome (option record * string) * option bool :=
  match MODES !! mode with
  | None => (Raise (KeyError mode), health)
  | Some params =>
      let (fetched, health') := get_weekly_data E symbol health in
      (match fetched with
       | None => Ok (None, "no_data")
       | Some df =>
           if (frame_len df <? 100)%nat then Ok (None, "no_data")
           else
             match indicators df with
             | Raise _ => Ok (None, "error")
             | Ok rows =>
                 match screen_frame params golden_only symbol name rows with
                 | Ok r => Ok r
                 | Raise _ => Ok (None, "error")
                 end
             end
       end, health')
  end.

End Web.

(** ** stock_screener_unified.py *)

Inductive job_class := tab1 | tab2.

Global Instance job_class_eq_dec : EqDecision job_class.
Proof. solve_decision. Defined.

Record stats_dict := Stats {
  success : nat;
  failed : nat;
  matched : nat
}.

(** A state dictionary, the value of [STATE['tab1']] or [STATE['tab2']].
    The key 'golden_only' exists in the dictionaries of tab1 only and
    'market_macd' in those of tab2 only; [None] is an absent key. *)
Record job_state := JobState {
  status : string;
  progress : nat;
  total : nat;
  current_stock : string;
  data_source : string;
  results : list record;
  stats : stats_dict;
  message : string;
  mode : string;
  golden_only : option bool;
  market_macd : option Q
}.

Definition set_status (v : string) (d : job_state) : job_state :=
  JobState v (progress d) (total d) (current_stock d) (data_source d)
    (results d) (stats d) (message d) (mode d) (golden_only d) (market_macd d).
Definition set_progress (v : nat) (d : job_state) : job_state :=
  JobState (status d) v (total d) (current_stock d) (data_source d)
    (results d) (stats d) (message d) (mode d) (golden_only d) (market_macd d).
Definition set_total (v : nat) (d : job_state) : job_state :=
  JobState (status d) (progress d) v (current_stock d) (data_source d)
    (results d) (stats d) (message d) (mode d) (golden_only d) (market_macd d).
Definition set_current_stock (v : string) (d : job_state) : job_state :=
  JobState (status d) (progress d) (total d) v (data_source d)
    (results d) (stats d) (message d) (mode d) (golden_only d) (market_macd d).
Definition set_data_source (v : string) (d : job_state) : job_state :=
  JobState (status d) (progress d) (total d) (current_stock d) v
    (results d) (stats d) (message d) (mode d) (golden_only d) (market_macd d).
Definition set_results (v : list record) (d : job_state) : job_state :=
  JobState (status d) (progress d) (total d) (current_stock d) (data_source d)
    v (stats d) (message d) (mode d) (golden_only d) (market_macd d).
Definition set_stats (v : stats_dict) (d : job_state) : job_state :=
  JobState (status d) (progress d) (total d) (current_stock d) (data_source d)
    (results d) v (message d) (mode d) (golden_only d) (market_macd d).
Definition set_message (v : string) (d : job_state) : job_state :=
  JobState (status d) (progress d) (total d) (current_stock d) (data_source d)
    (results d) (stats d) v (mode d) (golden_only d) (market_macd d).
Definition set_mode (v : string) (d : job_state) : job_state :=
  JobState (status d) (progress d) (total d) (current_stock d) (data_source d)
    (results d) (stats d) (message d) v (golden_only d) (market_macd d).
Definition set_golden_only (v : option bool) (d : job_state) : job_state :=
  JobState (status d) (progress d) (total d) (current_stock d) (data_source d)
    (results d) (stats d) (message d) (mode d) v (market_macd d).
Definition set_market_macd (v : option Q) (d : job_state) : job_state :=
  JobState (status d) (progress d) (total d) (current_stock d) (data_source d)
    (results d) (stats d) (message d) (mode d) (golden_only d) v.

(** The module-level objects.  [heap] holds the state dictionaries by
    identity (a reference is an index); [STATE] maps a job class to the
    dictionary currently published for it; a lock of [TASK_LOCKS] is
    [true] while held; [DATA_SOURCE_HEALTH] is the entry "eastmoney_ok".
    [API_LOCK] is taken and released inside one step of a thread and is
    not represented. *)
Record world := World {
  heap : list job_state;
  STATE : job_class -> nat;
  TASK_LOCKS : job_class -> bool;
  DATA_SOURCE_HEALTH : option bool
}.

Definition set_heap (h : list job_state) (w : world) : world :=
  World h (STATE w) (TASK_LOCKS w) (DATA_SOURCE_HEALTH w).
Definition set_STATE (c : job_class) (l : nat) (w : world) : world :=
  World (heap w) (fun c' => if decide (c' = c) then l else STATE w c')
        (TASK_LOCKS w) (DATA_SOURCE_HEALTH w).
Definition set_lock (c : job_class) (b : bool) (w : world) : world :=
  World (heap w) (STATE w)
        (fun c' => if decide (c' = c) then b else TASK_LOCKS w c')
        (DATA_SOURCE_HEALTH w).
Definition set_health (h : option bool) (w : world) : world :=
  World (heap w) (STATE w) (TASK_LOCKS w) h.

(** Code that reads and writes the module-level objects and may raise. *)
Definition M (A : Type) : Type := world -> outcome A * world.

Global Instance M_ret : MRet M := fun A a w => (Ok a, w).
Global Instance M_bind : MBind M := fun A B f m w =>
  match m w with
  | (Ok a, w') => f a w'
  | (Raise e, w') => (Raise e, w')
  end.

Definition raise {A} (e : string) : M A := fun w => (Raise e, w).
Definition lift {A} (o : outcome A) : M A := fun w => (o, w).
Definition gets {A} (f : world -> A) : M A := fun w => (Ok (f w), w).
Definition modify (f : world -> world) : M unit := fun w => (Ok tt, f w).

(** [try: body / except Exception as e: handler e] *)
Definition try_except {A} (body : M A) (handler : string -> M A) : M A :=
  fun w =>
    match body w with
    | (Ok a, w') => (Ok a, w')
    | (Raise e, w') => handler e w'
    end.

(** [d[key] = v] on the dictionary with reference [l]. *)
Definition update_dict (l : nat) (f : job_state -> job_state) : M unit :=
  modify (fun w => set_heap (alter f l (heap w)) w).

(** Reading the dictionary with reference [l]. *)
Definition read_dict (l : nat) : M job_state :=
  fun w =>
    match heap w !! l with
    | Some d => (Ok d, w)
    | None => (Raise "dangling reference", w)
    end.

(** A new dictionary object; its reference is returned. *)
Definition alloc_dict (d : job_state) : M nat :=
  fun w => (Ok (length (heap w)), set_heap (heap w ++ [d]) w).

(** [str.contains] for a literal pattern, and [if result:] on a
    dictionary or [None]. *)
Fixpoint contains (sub s : string) : bool :=
  String.prefix sub s ||
  match s with
  | EmptyString => false
  | String _ s' => contains sub s'
  end.

Definition truthy (result : option record) : bool :=
  match result with
  | Some (_ :: _) => true
  | _ => false
  end.

(** [sorted(results, key=lambda x: x[key])], ascending or with
    [reverse=True]; stable either way.  The keys are compared with [<]:
    a missing key raises, and so does a cell that is not a float.  With
    floats that are all numbers or infinities the result is the stable
    sort, here by insertion; with a NaN among them it is [nan_order]'s. *)
Definition sort_key (key : string) (r : record) : outcome float64 :=
  match record_get key r with
  | Some (VNum q) => Ok (Finite q)
  | Some (VInf negative) => Ok (Infinity negative)
  | Some VNaN => Ok NaN
  | Some _ => Raise "'<' not supported"
  | None => Raise (KeyError key)
  end.

Fixpoint keyed (key : string) (rs : list record)
  : outcome (list (float64 * record)) :=
  match rs with
  | [] => Ok []
  | r :: rs' =>
      match sort_key key r with
      | Raise e => Raise e
      | Ok k =>
          match keyed key rs' with
          | Raise e => Raise e
          | Ok krs => Ok ((k, r) :: krs)
          end
      end
  end.

Fixpoint insert_sorted (reverse : bool) (x : float64 * record)
    (l : list (float64 * record)) : list (float64 * record) :=
  match l with
  | [] => [x]
  | y :: l' =>
      if negb (if reverse then float_lt (fst x) (fst y)
               else float_lt (fst y) (fst x))
      then x :: y :: l'
      else y :: insert_sorted reverse x l'
  end.

Definition sorted (nan_order : bool -> list (float64 * record) -> list record)
    (key : string) (reverse : bool) (rs : list record)
  : outcome (list record) :=
  match keyed key rs with
  | Raise e => Raise e
  | Ok krs =>
      if existsb (fun kr => is_nan (fst kr)) krs then Ok (nan_order reverse krs)
      else Ok (map snd (foldr (insert_sorted reverse) [] krs))
  end.

(** *** Tab1: the weekly MACD screen *)

Definition TAB1_MODES : gmap string mode_params := list_to_map weekly_modes.

Record tab2_params := Tab2Params {
  p2_name : string;
  pb_max : Q;
  pb_min : Q;
  market_cap_min : Q;
  roa_min : Q;
  beta_max : Q
}.

Definition TAB2_MODES : gmap string tab2_params :=
  list_to_map
    [ ("strict",
       {| p2_name := "严格模式"; pb_max := 0.8; pb_min := 0.1;
          market_cap_min := 800; roa_min := 0.20; beta_max := 0.6 |});
      ("default",
       {| p2_name := "默认模式"; pb_max := 1.0; pb_min := 0.0;
          market_cap_min := 500; roa_min := 0.15; beta_max := 0.7 |});
      ("loose",
       {| p2_name := "宽松模式"; pb_max := 1.5; pb_min := 0.0;
          market_cap_min := 300; roa_min := 0.10; beta_max := 0.8 |}) ].

(** The body of [screen_stock_tab1] from [current = df.iloc[-1]] on. *)
Definition screen_frame_tab1 (params : mode_params) (golden_only : bool)
    (symbol name : string) (df : list row)
  : outcome (option record * string) :=
  match iloc_last df with
  | Raise e => Raise e
  | Ok current =>
    let prev := iloc_prev df in
    let close := r_close current in
    let dea := r_DEA current in
    let dif := r_DIF current in
    let macd := r_MACD current in
    let prev_macd := match prev with Some p => r_MACD p | None => 0 end in
    match r_MA55 current with
    | None => Ok (None, "no_ma")
    | Some ma55 =>
      let deviation := fdiv (close - ma55) ma55 in
      if flt deviation (ma_min params) || fge deviation (ma_max params)
      then Ok (None, "ma_filter")
      else
        let max_dea := max_dea_100w df in
        if nan_false (fun m => Qle_bool m (history_dea params)) max_dea
           || nan_false (fun m => Qle_bool (pullback params * m) dea) max_dea
        then Ok (None, "dea_filter")
        else if Qle_bool dea (dea_min params) || Qle_bool (dea_max params) dea
        then Ok (None, "dea_range")
        else
          let is_golden := Qlt_bool dea dif in
          if golden_only && negb is_golden then Ok (None, "no_golden")
          else
            let signal :=
              if is_golden then "金叉"
              else if Qlt_bool prev_macd macd && Qlt_bool macd 0 then "绿柱缩短"
              else "待金叉" in
            Ok (Some
                  [ ("代码", VStr symbol); ("名称", VStr name);
                    ("收盘价", VNum (py_round close 2));
                    ("MA55", VNum (py_round ma55 2));
                    ("偏离度%", cell (fround (fscale deviation 100) 2));
                    ("DEA", VNum (py_round dea 4));
                    ("历史DEA", num ((fun m => py_round m 4) <$> max_dea));
                    ("回落比%",
                     match max_dea with
                     | Some m =>
                         cell (fround (fscale (fsub_from 1 (fdiv dea m)) 100) 1)
                     | None => VNaN
                     end);
                    ("信号", VStr signal) ],
                "matched")
    end
  end.

(** ** The pipeline as the specification words it *)

(** An ordered chain of named predicates with first-failure reporting. *)
Module Chain.

Record test (F : Type) := Test {
  holds : F -> bool;
  reason : string
}.
Arguments Test {F} holds reason.
Arguments holds {F} t fr.
Arguments reason {F} t.



End Chain.

(** [m] is the greatest, or the least, member of [xs]. *)
Definition is_max (m : Q) (xs : list Q) : Prop :=
  m ∈ xs /\ forall x, x ∈ xs -> x <= m.
Definition is_min (m : Q) (xs : list Q) : Prop :=
  m ∈ xs /\ forall x, x ∈ xs -> m <= x.

Section Predicates.

Variable params : mode_params.
Variable golden_only : bool.

(** deviation = (close - MA) / MA on the latest bar, the quotient of two
    floats; undefined with the moving average. *)
Definition deviation (df : list row) : option float64 :=
  r ← last df; ma ← r_MA55 r; Some (fdiv (r_close r - ma) ma).









End Predicates.

(** ** Auxiliary notions of the proofs *)

Definition date_le (x y : Z * daily) : Prop := (fst x <= fst y)%Z.

(** The weekly bar of one bin, when the bin has rows. *)
Definition bar_of_group (f : Z) (g : list daily) : option bar :=
  o ← Resample.agg_first (map d_open g);
  h ← Resample.agg_max (map d_high g);
  l ← Resample.agg_min (map d_low g);
  c ← Resample.agg_last (map d_close g);
  Some (Bar f o h l c (Resample.agg_sum (map d_amount g))).

Definition golden_price (t : nat) : Q := nth t golden_closes 0.

(** A frame of one bar far above its moving average, with DIF under a DEA far
    below zero, and a frame of two bars that passes the default mode. *)
Definition default_params : mode_params :=
  ModeParams "默认模式" (-0.05) 0.10 0.1 0.5 0 1.0.




Section Screeners.

Variable E : env.

(** The fallback of [get_weekly_data_tab1]: two attempts on the daily
    source; a reply with rows is aggregated to weeks and returned. *)
Fixpoint tencent_weekly (symbol : string) (retries : list nat)
  : M (option frame) :=
  match retries with
  | [] => mret None
  | retry :: rest =>
      match stock_zh_a_hist_tx E symbol retry with
      | TxRaise => tencent_weekly symbol rest
      | TxNone | TxDaily [] => tencent_weekly symbol rest
      | TxDaily df_daily =>
          let df_weekly := Resample.weekly df_daily in
          w ← gets id;
          update_dict (STATE w tab1)
            (set_data_source "腾讯 (stock_zh_a_hist_tx → 周线聚合)");;
          mret (Some (Numeric df_weekly))
      end
  end.

Definition get_weekly_data_tab1 (symbol : string) : M (option frame) :=
  health ← gets DATA_SOURCE_HEALTH;
  first ←
    (if bool_decide (health ≠ Some false) then
       match stock_zh_a_hist_weekly E symbol with
       | EmRaise _ => modify (set_health (Some false));; mret None
       | EmNone => mret None
       | EmFrame df =>
           if (55 <=? frame_len df)%nat then
             modify (set_health (Some true));;
             w ← gets id;
             update_dict (STATE w tab1)
               (set_data_source "东方财富 (stock_zh_a_hist)");;
             mret (Some df)
           else mret None
       end
     else mret None);
  match first with
  | Some df => mret (Some df)
  | None => tencent_weekly symbol [0; 1]%nat
  end.

(** The [try] block of [screen_stock_tab1]. *)
Definition weekly_pipeline (params : mode_params) (symbol name : string)
    (golden_only : bool) : M (option record * string) :=
  df ← get_weekly_data_tab1 symbol;
  match df with
  | None => mret (None, "no_data")
  | Some df =>
      if (frame_len df <? 100)%nat then mret (None, "no_data")
      else
        rows ← lift (indicators df);
        lift (screen_frame_tab1 params golden_only symbol name rows)
  end.

(** [screen_stock_tab1(symbol, name, end_date, mode, golden_only)]: the
    lookup of the mode comes before the [try]. *)
Definition screen_stock_tab1 (symbol name : string) (mode : string)
    (golden_only : bool) : M (option record * string) :=
  match TAB1_MODES !! mode with
  | None => raise (KeyError mode)
  | Some params =>
      try_except (weekly_pipeline params symbol name golden_only)
        (fun _ => mret (None, "error"))
  end.

(** *** Tab2: the monthly screen on valuation facts *)

(** The retry loop on the valuation facts: [Some] facts, or [None]
    when the last attempt fails too. *)
Fixpoint fundamental (symbol : string) (retries : list nat)
  : option (Q * option Q) :=
  match retries with
  | [] => None
  | retry :: rest =>
      match stock_individual_info_em E symbol retry with
      | FundFacts market_cap pb_ratio => Some (market_cap, pb_ratio)
      | FundRaise | FundEmpty => fundamental symbol rest
      end
  end.

(** The [try] block of [screen_stock_tab2]. *)
Definition fundamental_pipeline (params : tab2_params) (symbol name : string)
  : M (option record * string) :=
  match fundamental symbol [0; 1; 2]%nat with
  | None => mret (None, "no_fundamental")
  | Some (market_cap, None) => mret (None, "pb_filter")
  | Some (market_cap, Some pb_ratio) =>
      if Qle_bool pb_ratio (pb_min params)
         || Qle_bool (pb_max params) pb_ratio
      then mret (None, "pb_filter")
      else if Qlt_bool market_cap (market_cap_min params)
      then mret (None, "market_cap_filter")
      else
        match calculate_beta E symbol with
        | None => mret (None, "beta_filter")
        | Some beta =>
            if Qle_bool (beta_max params) beta
            then mret (None, "beta_filter")
            else
              match get_monthly_data_tab2 E symbol with
              | None => mret (None, "no_monthly_data")
              | Some df =>
                  if (frame_len df <? 50)%nat
                  then mret (None, "no_monthly_data")
                  else
                    rows ← lift (indicators df);
                    current ← lift (iloc_last rows);
                    let dea := r_DEA current in
                    let dif := r_DIF current in
                    let close := r_close current in
                    let signal :=
                      if Qlt_bool dea dif then "金叉" else "待金叉" in
                    mret
                      (Some
                         [ ("代码", VStr symbol); ("名称", VStr name);
                           ("收盘价", VNum (py_round close 2));
                           ("市值(亿)", VNum (py_round market_cap 2));
                           ("PB", VNum (py_round pb_ratio 2));
                           ("Beta", VNum (py_round beta 2));
                           ("DEA", VNum (py_round dea 4));
                           ("信号", VStr signal) ],
                       "matched")
              end
        end
  end.

(** [screen_stock_tab2(symbol, name, end_date, mode)] *)
Definition screen_stock_tab2 (symbol name : string) (mode : string)
  : M (option record * string) :=
  match TAB2_MODES !! mode with
  | None => raise (KeyError mode)
  | Some params =>
      try_except (fundamental_pipeline params symbol name)
        (fun _ => mret (None, "error"))
  end.

(** [get_market_macd_signal()] *)
Definition get_market_macd_signal : M Q :=
  try_except
    (match stock_zh_index_hist_monthly E with
     | EmRaise e => raise e
     | EmNone => mret 0
     | EmFrame df =>
         if (frame_len df <? 50)%nat then mret 0
         else
           rows ← lift (indicators df);
           current ← lift (iloc_last rows);
           let last_macd := r_MACD current in
           w ← gets id;
           update_dict (STATE w tab2)
             (set_market_macd (Some (py_round last_macd 4)));;
           mret last_macd
     end)
    (fun _ => mret 0).

(** *** The background tasks *)

(** Where a task thread stands: started but not yet run; past the lock
    and the reset of its dictionary; before the iteration with index
    [i] of its loop over the symbols still [todo]; returned.  [state]
    is the thread's local variable of that name, a reference to the
    dictionary it took from [STATE] when it entered. *)
Inductive pc :=
| AtEntry
| Resolving (state : nat)
| InLoop (state : nat) (todo : list stock) (i : nat)
| Returned.

(** A thread made by [start]: its job class and the arguments
    [(ratio, mode, golden_only)] it was given. *)
Record thread := Thread {
  t_class : job_class;
  t_ratio : Q;
  t_mode : string;
  t_golden : bool;
  t_pc : pc
}.

Definition at_pc (p : pc) (t : thread) : thread :=
  Thread (t_class t) (t_ratio t) (t_mode t) (t_golden t) p.

(** [ak.stock_info_a_code_name()] with the two filters and the
    sub-sampling. *)
Definition resolve_universe (ratio : Q) : M (list stock) :=
  stocks ← lift (stock_info_a_code_name E);
  let stocks :=
    List.filter
      (fun s => negb (contains "ST" (snd s) || contains "退" (snd s)))
      stocks in
  let stocks :=
    List.filter
      (fun s => String.prefix "00" (fst s) || String.prefix "30" (fst s)
                || String.prefix "60" (fst s) || String.prefix "68" (fst s))
      stocks in
  mret (if Qlt_bool ratio 1 then sample E ratio stocks else stocks).

(** The three-way classification at the end of an iteration;
    [failing] is the list of statuses the loop counts as failed. *)
Definition tally (failing : list string) (result : option record)
    (st : string) (d : job_state) : job_state :=
  if truthy result then
    let d := set_results (results d ++ option_list result) d in
    let d := set_stats (Stats (success (stats d)) (failed (stats d))
                              (matched (stats d) + 1)) d in
    set_stats (Stats (success (stats d) + 1) (failed (stats d))
                     (matched (stats d))) d
  else if bool_decide (st ∈ failing) then
    set_stats (Stats (success (stats d)) (failed (stats d) + 1)
                     (matched (stats d))) d
  else
    set_stats (Stats (success (stats d) + 1) (failed (stats d))
                     (matched (stats d))) d.

Definition done_message (n : nat) : string :=
  "完成! 找到 " +:+ pretty n +:+ " 只股票".

(** The [try] block of [run_task_tab1], one step at a time. *)
Definition run_task_tab1_body (t : thread) : M pc :=
  match t_pc t with
  | AtEntry =>
      w ← gets id;
      let state := STATE w tab1 in
      update_dict state
        (fun d =>
           set_golden_only (Some (t_golden t))
             (set_mode (t_mode t)
                (set_message "获取股票列表..."
                   (set_stats (Stats 0 0 0)
                      (set_results []
                         (set_progress 0 (set_status "running" d)))))));;
      mret (Resolving state)
  | Resolving state =>
      stocks ← resolve_universe (t_ratio t);
      update_dict state (set_total (length stocks));;
      mret (InLoop state stocks 0)
  | InLoop state (row :: todo) i =>
      update_dict state (set_progress (i + 1));;
      update_dict state (set_current_stock (fst row +:+ " " +:+ snd row));;
      r ← screen_stock_tab1 (fst row) (snd row) (t_mode t) (t_golden t);
      update_dict state (tally ["no_data"; "error"] (fst r) (snd r));;
      mret (InLoop state todo (S i))
  | InLoop state [] i =>
      d ← read_dict state;
      rs ← lift (sorted (sorted_nan E) "偏离度%" false (results d));
      update_dict state (set_results rs);;
      update_dict state (set_status "completed");;
      update_dict state (set_message (done_message (length rs)));;
      mret Returned
  | Returned => mret Returned
  end.

(** The [try] block of [run_task_tab2], one step at a time. *)
Definition run_task_tab2_body (t : thread) : M pc :=
  match t_pc t with
  | AtEntry =>
      w ← gets id;
      let state := STATE w tab2 in
      update_dict state
        (fun d =>
           set_mode (t_mode t)
             (set_message "获取大盘MACD信号..."
                (set_stats (Stats 0 0 0)
                   (set_results []
                      (set_progress 0 (set_status "running" d))))));;
      mret (Resolving state)
  | Resolving state =>
      signal ← get_market_macd_signal;
      d ← read_dict state;
      shown ← lift (match market_macd d with
                    | Some m => Ok (float_str E m)
                    | None => Raise (KeyError "market_macd")
                    end);
      update_dict state
        (set_message
           (if Qlt_bool 0 signal
            then "⚠️ 大盘MACD=" +:+ shown +:+ ">0, 建议谨慎"
            else "✅ 大盘MACD=" +:+ shown +:+ "≤0, 可筛选"));;
      stocks ← resolve_universe (t_ratio t);
      update_dict state (set_total (length stocks));;
      mret (InLoop state stocks 0)
  | InLoop state (row :: todo) i =>
      update_dict state (set_progress (i + 1));;
      update_dict state (set_current_stock (fst row +:+ " " +:+ snd row));;
      r ← screen_stock_tab2 (fst row) (snd row) (t_mode t);
      update_dict state
        (tally ["no_fundamental"; "no_monthly_data"; "error"] (fst r) (snd r));;
      mret (InLoop state todo (S i))
  | InLoop state [] i =>
      d ← read_dict state;
      rs ← lift (sorted (sorted_nan E) "市值(亿)" true (results d));
      update_dict state (set_results rs);;
      update_dict state (set_status "completed");;
      update_dict state (set_message (done_message (length rs)));;
      mret Returned
  | Returned => mret Returned
  end.

Definition busy_message (c : job_class) : string :=
  match c with
  | tab1 => "Tab1任务已在运行中，请等待完成"
  | tab2 => "Tab2任务已在运行中，请等待完成"
  end.

Definition body (t : thread) : M pc :=
  match t_class t with
  | tab1 => run_task_tab1_body t
  | tab2 => run_task_tab2_body t
  end.

(** [except Exception as e:] writes through [STATE], and [finally:]
    releases the lock of the class. *)
Definition on_exception (c : job_class) (e : string) (w : world) : world :=
  let w1 := set_heap (alter (set_status "error") (STATE w c) (heap w)) w in
  set_heap (alter (set_message e) (STATE w1 c) (heap w1)) w1.

Definition guarded (t : thread) (w : world) : thread * world :=
  match body t w with
  | (Ok Returned, w') => (at_pc Returned t, set_lock (t_class t) false w')
  | (Ok p, w') => (at_pc p t, w')
  | (Raise e, w') =>
      (at_pc Returned t,
       set_lock (t_class t) false (on_exception (t_class t) e w'))
  end.

(** One step of a task thread.  At its entry the thread tries the lock
    of its class without blocking; if the lock is held it writes the
    busy message through [STATE] and returns. *)
Definition thread_step (t : thread) (w : world) : thread * world :=
  match t_pc t with
  | Returned => (t, w)
  | AtEntry =>
      if TASK_LOCKS w (t_class t) then
        (at_pc Returned t,
         on_exception (t_class t) (busy_message (t_class t)) w)
      else guarded t (set_lock (t_class t) true w)
  | _ => guarded t w
  end.

(** *** The routes and the threads together *)

Record system := System {
  globals : world;
  pool : list thread
}.

(** The dictionary [start] publishes for a class. *)
Definition fresh_state (c : job_class) (mode : string) (golden_only : bool)
  : job_state :=
  match c with
  | tab1 =>
      JobState "idle" 0 0 "" "自动选择" [] (Stats 0 0 0) "" mode
        (Some golden_only) None
  | tab2 =>
      JobState "idle" 0 0 "" "东方财富" [] (Stats 0 0 0) "" mode
        None (Some 0)
  end.

Definition class_of (tab : string) : option job_class :=
  if bool_decide (tab = "tab1") then Some tab1
  else if bool_decide (tab = "tab2") then Some tab2
  else None.

(** The route [/start/<tab>]: the arguments are the request's mode,
    ratio and golden flag after parsing.  It answers [{'ok': True}]. *)
Definition start (tab : string) (mode : string) (ratio : Q)
    (golden_only : bool) (s : system) : record * system :=
  ([("ok", VBool true)],
   match class_of tab with
   | Some c =>
       let w := globals s in
       let l := length (heap w) in
       let w' := set_STATE c l
                   (set_heap (heap w ++ [fresh_state c mode golden_only]) w) in
       System w' (pool s ++ [Thread c ratio mode
                               (match c with tab1 => golden_only
                                           | tab2 => false end)
                               AtEntry])
   | None => s
   end).

(** The route [/status/<tab>]: the dictionary published for the class. *)
Definition status_route (tab : string) (s : system) : option job_state :=
  c ← class_of tab; heap (globals s) !! STATE (globals s) c.

(** What can happen next: a request to [/start/<tab>], or the
    scheduler letting the thread [tid] take its next step. *)
Inductive event :=
| Request (tab : string) (mode : string) (ratio : Q) (golden_only : bool)
| Sched (tid : nat).

Definition run_thread (tid : nat) (s : system) : system :=
  match pool s !! tid with
  | Some t =>
      let (t', w') := thread_step t (globals s) in
      System w' (<[tid := t']> (pool s))
  | None => s
  end.

Definition sys_step (s : system) (ev : event) : system :=
  match ev with
  | Request tab mode ratio golden_only =>
      snd (start tab mode ratio golden_only s)
  | Sched tid => run_thread tid s
  end.

Definition run (evs : list event) (s : system) : system :=
  foldl sys_step s evs.

End Screeners.

(** The module as loaded: both classes idle, no thread. *)
Definition initial_world : world :=
  World [ JobState "idle" 0 0 "" "自动选择" [] (Stats 0 0 0) "" "default"
            (Some false) None;
          JobState "idle" 0 0 "" "东方财富" [] (Stats 0 0 0) "" "default"
            None (Some 0) ]
        (fun c => match c with tab1 => 0%nat | tab2 => 1%nat end)
        (fun _ => false) None.

Definition initial_system : system := System initial_world [].

(** ** A fixture: five symbols, one of them without data *)

Definition weekly_bars (closes : list Q) : list bar :=
  imap (fun i c => Bar (19727 + 7 * Z.of_nat i) c c c c 1000) closes.

Definition closes_of (price : nat -> Q) (n : nat) : list Q := map price (seq 0 n).

(** A rally that gave most of its gain back and turned up again. *)
Definition rally_pullback (t : nat) : Q :=
  if (t <? 30)%nat then 10
  else if (t <? 60)%nat then 10 + inject_Z (Z.of_nat (t - 30)) / 3
  else if (t <? 100)%nat then 20 - inject_Z (Z.of_nat (t - 60)) / 10
  else 16 + inject_Z (Z.of_nat (t - 100)) / 10.

Definition steady_rise (t : nat) : Q := 10 + inject_Z (Z.of_nat t) / 10.
Definition steady_fall (t : nat) : Q := 30 - inject_Z (Z.of_nat t) / 10.

Definition below_zero_axis (t : nat) : Q :=
  if (t <? 40)%nat then 8
  else if (t <? 70)%nat then 8 + inject_Z (Z.of_nat (t - 40)) / 5
  else if (t <? 95)%nat then 14 - inject_Z (Z.of_nat (t - 70)) / 10
  else (23 # 2) + inject_Z (Z.of_nat (t - 95)) / 20.

Definition five_symbols : env :=
  {| stock_info_a_code_name :=
       Ok [ ("600001", "甲"); ("000002", "乙"); ("300003", "丙");
            ("600004", "丁"); ("000005", "戊");
            ("600006", "*ST己"); ("900007", "庚") ];
     sample := fun _ stocks => stocks;
     today := "20240105";
     stock_zh_a_hist_weekly := fun symbol =>
       if bool_decide (symbol = "600001")
       then EmFrame (Numeric (weekly_bars (closes_of rally_pullback 120)))
       else if bool_decide (symbol = "000002")
       then EmFrame (Numeric (weekly_bars (closes_of steady_rise 120)))
       else if bool_decide (symbol = "600004")
       then EmFrame (Numeric (weekly_bars (closes_of below_zero_axis 110)))
       else if bool_decide (symbol = "000005")
       then EmFrame (Numeric (weekly_bars (closes_of steady_fall 120)))
       else EmNone;
     stock_zh_a_hist_tx := fun _ _ => TxNone;
     stock_individual_info_em := fun _ _ => FundEmpty;
     calculate_beta := fun _ => None;
     get_monthly_data_tab2 := fun _ => None;
     stock_zh_index_hist_monthly := EmNone;
     float_str := fun _ => "0";
     sorted_nan := fun _ keyed => map snd keyed |}.

Definition five_symbol_run : list event :=
  Request "tab1" "default" 1 false :: replicate 8 (Sched 0).

(** ** The orchestrator: notions of the proofs *)

(** The class a dictionary was made for: only the weekly one has the
    key "golden_only". *)
Definition dict_class (d : job_state) : job_class :=
  match golden_only d with Some _ => tab1 | None => tab2 end.

(** The fields the counters and the routes depend on. *)
Definition core_of (d : job_state) : string * nat * stats_dict * list record * job_class :=
  (status d, progress d, stats d, results d, dict_class d).

(** A write that leaves those fields alone, and one whose result on
    them depends on them only. *)
Definition core_neutral (f : job_state -> job_state) : Prop :=
  forall d, core_of (f d) = core_of d.

Definition core_respecting (f : job_state -> job_state) : Prop :=
  forall d d', core_of d = core_of d' -> core_of (f d) = core_of (f d').

(** The heap after the fetch has named its source, if it has. *)
Definition labelled (src : option string) (c : job_class) (w : world) : list job_state :=
  match src with
  | Some s => alter (set_data_source s) (STATE w c) (heap w)
  | None => heap w
  end.

(** A screening outcome with a result has the status 'matched', a
    result that is not empty and a number under the ranking key. *)
Definition well_formed (key : string) (r : option record * string) : Prop :=
  forall res, fst r = Some res ->
    snd r = "matched" /\ truthy (Some res) = true /\ exists q, sort_key key res = Ok q.

(** The dictionary a thread holds in its local variable [state]. *)
Definition alias (p : pc) : option nat :=
  match p with
  | Resolving l | InLoop l _ _ => Some l
  | AtEntry | Returned => None
  end.

(** The statuses a loop counts as failed, and its ranking key with the
    [reverse] flag. *)
Definition failing (c : job_class) : list string :=
  match c with
  | tab1 => ["no_data"; "error"]
  | tab2 => ["no_fundamental"; "no_monthly_data"; "error"]
  end.

Definition ranking (c : job_class) : string * bool :=
  match c with
  | tab1 => ("偏离度%", false)
  | tab2 => ("市值(亿)", true)
  end.

(** The mode is registered for the class. *)
Definition known_mode (c : job_class) (mode : string) : Prop :=
  match c with
  | tab1 => is_Some (TAB1_MODES !! mode)
  | tab2 => is_Some (TAB2_MODES !! mode)
  end.

(** The reset a thread applies to its dictionary when it enters. *)
Definition entered (t : thread) (d : job_state) : job_state :=
  match t_class t with
  | tab1 =>
      set_golden_only (Some (t_golden t))
        (set_mode (t_mode t)
           (set_message "获取股票列表..."
              (set_stats (Stats 0 0 0)
                 (set_results [] (set_progress 0 (set_status "running" d))))))
  | tab2 =>
      set_mode (t_mode t)
        (set_message "获取大盘MACD信号..."
           (set_stats (Stats 0 0 0)
              (set_results [] (set_progress 0 (set_status "running" d)))))
  end.

(** The heap through [core_of]. *)
Definition cores (w : world) := core_of <$> heap w.

(** What one step of a thread does, up to the fields outside [core_of]. *)
Inductive step_effect (t : thread) (w : world) (t' : thread) (w' : world) : Prop :=
| effect_idle :
    t_pc t = Returned -> t_pc t' = Returned ->
    TASK_LOCKS w' = TASK_LOCKS w -> cores w' = cores w ->
    step_effect t w t' w'
| effect_busy :
    t_pc t = AtEntry -> TASK_LOCKS w (t_class t) = true ->
    t_pc t' = Returned -> TASK_LOCKS w' = TASK_LOCKS w ->
    cores w' = core_of <$> alter (set_status "error") (STATE w (t_class t)) (heap w) ->
    step_effect t w t' w'
| effect_enter :
    t_pc t = AtEntry -> TASK_LOCKS w (t_class t) = false ->
    t_pc t' = Resolving (STATE w (t_class t)) -> TASK_LOCKS w' (t_class t) = true ->
    cores w' = core_of <$> alter (entered t) (STATE w (t_class t)) (heap w) ->
    step_effect t w t' w'
| effect_resolved l stocks :
    t_pc t = Resolving l -> t_pc t' = InLoop l stocks 0 ->
    TASK_LOCKS w' = TASK_LOCKS w -> cores w' = cores w ->
    step_effect t w t' w'
| effect_iterated l row todo i r :
    t_pc t = InLoop l (row :: todo) i -> t_pc t' = InLoop l todo (S i) ->
    known_mode (t_class t) (t_mode t) ->
    TASK_LOCKS w' = TASK_LOCKS w ->
    well_formed (fst (ranking (t_class t))) r ->
    cores w' = core_of <$> alter (fun d => tally (failing (t_class t)) (fst r) (snd r)
                                              (set_progress (i + 1) d)) l (heap w) ->
    step_effect t w t' w'
| effect_completed l i d rs :
    t_pc t = InLoop l [] i -> t_pc t' = Returned ->
    TASK_LOCKS w' (t_class t) = false ->
    heap w !! l = Some d ->
    (exists krs, keyed (fst (ranking (t_class t))) (results d) = Ok krs) ->
    cores w' = core_of <$> alter (fun d => set_status "completed" (set_results rs d))
                             l (heap w) ->
    step_effect t w t' w'
| effect_failed l f :
    alias (t_pc t) = Some l -> t_pc t' = Returned ->
    TASK_LOCKS w' (t_class t) = false ->
    (forall row todo i, t_pc t = InLoop l (row :: todo) i ->
       ~ known_mode (t_class t) (t_mode t)) ->
    (forall i d, t_pc t = InLoop l [] i -> heap w !! l = Some d ->
       exists e, keyed (fst (ranking (t_class t))) (results d) = Raise e) ->
    (forall d, status (f d) = status d /\ stats (f d) = stats d
               /\ results (f d) = results d /\ dict_class (f d) = dict_class d) ->
    cores w' = core_of <$> alter (set_status "error") (STATE w (t_class t))
                             (alter f l (heap w)) ->
    step_effect t w t' w'.

Definition counts_ok (d : job_state) : Prop :=
  (success (stats d) + failed (stats d) = progress d
   /\ matched (stats d) = length (results d)
   /\ matched (stats d) <= success (stats d))%nat.

Definition sortable (c : job_class) (d : job_state) : Prop :=
  Forall (fun res => exists q, sort_key (fst (ranking c)) res = Ok q) (results d).

(** The iterations a thread standing at [p] has finished. *)
Definition iterations_done (p : pc) : nat :=
  match p with
  | InLoop _ _ i => i
  | _ => 0%nat
  end.

Record invariant (s : system) : Prop := Invariant {
  inv_state : forall c, exists d,
    heap (globals s) !! STATE (globals s) c = Some d /\ dict_class d = c;
  inv_alias : forall tid t l,
    pool s !! tid = Some t -> alias (t_pc t) = Some l ->
    TASK_LOCKS (globals s) (t_class t) = true /\
    exists d, heap (globals s) !! l = Some d /\ dict_class d = t_class t /\
      counts_ok d /\ sortable (t_class t) d /\ progress d = iterations_done (t_pc t);
  inv_single : forall tid1 tid2 t1 t2,
    pool s !! tid1 = Some t1 -> pool s !! tid2 = Some t2 ->
    is_Some (alias (t_pc t1)) -> is_Some (alias (t_pc t2)) ->
    t_class t1 = t_class t2 -> tid1 = tid2;
  inv_running : forall c d,
    heap (globals s) !! STATE (globals s) c = Some d -> status d = "running" ->
    exists tid t, pool s !! tid = Some t /\ t_class t = c
                  /\ alias (t_pc t) = Some (STATE (globals s) c)
}.

(** The dictionary a step may rewrite: the one the thread holds, or the
    published one when the thread enters. *)
Definition own (t : thread) (w : world) : option nat :=
  match t_pc t with
  | AtEntry => if TASK_LOCKS w (t_class t) then None else Some (STATE w (t_class t))
  | Resolving l | InLoop l _ _ => Some l
  | Returned => None
  end.

Definition pick (b : bool) (f : job_state -> job_state) : job_state -> job_state :=
  if b then f else id.

(** The screening call of one iteration, and the globals it meets: the
    progress counter and the symbol on display are written first. *)
Definition screen (E : env) (t : thread) (row : stock) : M (option record * string) :=
  match t_class t with
  | tab1 => screen_stock_tab1 E (fst row) (snd row) (t_mode t) (t_golden t)
  | tab2 => screen_stock_tab2 E (fst row) (snd row) (t_mode t)
  end.

Definition announced (l : nat) (row : stock) (i : nat) (w : world) : world :=
  set_heap (alter (set_current_stock (fst row +:+ " " +:+ snd row)) l
              (alter (set_progress (i + 1)) l (heap w))) w.

(** The [try] block the screener of a thread runs on a symbol; there is
    none when the mode of the thread is not registered. *)
Definition pipeline (E : env) (t : thread) (row : stock)
  : option (M (option record * string)) :=
  match t_class t with
  | tab1 =>
      params ← TAB1_MODES !! t_mode t;
      Some (weekly_pipeline E params (fst row) (snd row) (t_golden t))
  | tab2 =>
      params ← TAB2_MODES !! t_mode t;
      Some (fundamental_pipeline E params (fst row) (snd row))
  end.

(** The data of a symbol are not there.  Weekly class: the sources give
    no frame, or one of fewer than 100 bars.  Fundamental class: no
    valuation facts in three attempts; or, for a symbol the filters on
    the facts and on beta let through, no monthly frame of 50 bars. *)
Definition no_weekly_data (E : env) (symbol : string) (w : world) : Prop :=
  exists o, fst (get_weekly_data_tab1 E symbol w) = Ok o /\
            forall df, o = Some df -> (frame_len df < 100)%nat.

Definition no_fundamental (E : env) (symbol : string) : Prop :=
  forall retry, (retry < 3)%nat ->
    stock_individual_info_em E symbol retry = FundRaise
    \/ stock_individual_info_em E symbol retry = FundEmpty.

Definition no_monthly_data (E : env) (params : tab2_params) (symbol : string) : Prop :=
  exists market_cap pb_ratio beta,
    fundamental E symbol [0; 1; 2]%nat = Some (market_cap, Some pb_ratio) /\
    pb_min params < pb_ratio /\ pb_ratio < pb_max params /\
    market_cap_min params <= market_cap /\
    calculate_beta E symbol = Some beta /\ beta < beta_max params /\
    forall df, get_monthly_data_tab2 E symbol = Some df -> (frame_len df < 50)%nat.

Definition data_unavailable (E : env) (t : thread) (symbol : string) (w : world)
  : Prop :=
  match t_class t with
  | tab1 => no_weekly_data E symbol w
  | tab2 =>
      no_fundamental E symbol
      \/ exists params, TAB2_MODES !! t_mode t = Some params
                        /\ no_monthly_data E params symbol
  end.

(** Neither source has a frame for the symbol. *)
Definition source_silent (E : env) (symbol : string) : Prop :=
  (forall df, stock_zh_a_hist_weekly E symbol <> EmFrame df) /\
  forall retry, stock_zh_a_hist_tx E symbol retry = TxNone
                \/ stock_zh_a_hist_tx E symbol retry = TxRaise.

(** A fixture: three symbols without price history; the valuation facts
    of the first pass every filter, the second has no price-to-book
    ratio, the third has no facts. *)
Definition monthly_bars (closes : list Q) : list bar :=
  imap (fun i c => Bar (19000 + 30 * Z.of_nat i) c c c c 1000) closes.

Definition small_market : env :=
  {| stock_info_a_code_name :=
       Ok [ ("600001", "甲"); ("000002", "乙"); ("300003", "丙") ];
     sample := fun _ stocks => stocks;
     today := "20240105";
     stock_zh_a_hist_weekly := fun _ => EmNone;
     stock_zh_a_hist_tx := fun _ _ => TxNone;
     stock_individual_info_em := fun symbol _ =>
       if bool_decide (symbol = "600001") then FundFacts 900 (Some 0.5)
       else if bool_decide (symbol = "000002") then FundFacts 100 None
       else FundEmpty;
     calculate_beta := fun _ => Some 0.5;
     get_monthly_data_tab2 := fun _ =>
       Some (Numeric (monthly_bars (closes_of steady_rise 50)));
     stock_zh_index_hist_monthly := EmNone;
     float_str := fun _ => "0";
     sorted_nan := fun _ keyed => map snd keyed |}.

(** [small_market] with, for every symbol, a weekly frame of 120 rows
    whose cells are not numbers; and [small_market] with no beta for any
    symbol. *)
Definition garbled_market : env :=
  {| stock_info_a_code_name := stock_info_a_code_name small_market;
     sample := sample small_market;
     today := today small_market;
     stock_zh_a_hist_weekly := fun _ => EmFrame (NonNumeric 120);
     stock_zh_a_hist_tx := stock_zh_a_hist_tx small_market;
     stock_individual_info_em := stock_individual_info_em small_market;
     calculate_beta := calculate_beta small_market;
     get_monthly_data_tab2 := get_monthly_data_tab2 small_market;
     stock_zh_index_hist_monthly := stock_zh_index_hist_monthly small_market;
     float_str := float_str small_market;
     sorted_nan := sorted_nan small_market |}.

Definition no_beta_market : env :=
  {| stock_info_a_code_name := stock_info_a_code_name small_market;
     sample := sample small_market;
     today := today small_market;
     stock_zh_a_hist_weekly := stock_zh_a_hist_weekly small_market;
     stock_zh_a_hist_tx := stock_zh_a_hist_tx small_market;
     stock_individual_info_em := stock_individual_info_em small_market;
     calculate_beta := fun _ => None;
     get_monthly_data_tab2 := get_monthly_data_tab2 small_market;
     stock_zh_index_hist_monthly := stock_zh_index_hist_monthly small_market;
     float_str := float_str small_market;
     sorted_nan := sorted_nan small_market |}.

(** A weekly job of [garbled_market] about to screen its first symbol. *)
Definition before_first_symbol : system :=
  run garbled_market [Request "tab1" "default" 1 false; Sched 0; Sched 0]%nat
    initial_system.

(** A weekly job of [small_market] after its first iteration, and a
    fundamental job after its third. *)
Definition mid_run : system :=
  run small_market
    [Request "tab1" "default" 1 false; Sched 0; Sched 0; Sched 0]%nat initial_system.

Definition three_iterations : list event :=
  [Request "tab2" "default" 1 false; Sched 0; Sched 0; Sched 0; Sched 0; Sched 0]%nat.

Definition spawned (c : job_class) (mode : string) (ratio : Q) (golden_only : bool)
    (p : pc) : thread :=
  Thread c ratio mode (match c with tab1 => golden_only | tab2 => false end) p.

(** * Properties *)

(** ** Rationals and lists *)

Lemma Qle_bool_false x y : Qle_bool x y = false -> y < x.
Proof.
  intros H. apply Qnot_le_lt. intros Hle. apply Qle_bool_iff in Hle. congruence.
Qed.

Lemma Qlt_bool_iff x y : Qlt_bool x y = true <-> x < y.
Proof.
  unfold Qlt_bool. rewrite negb_true_iff. split.
  - apply Qle_bool_false.
  - intros H. destruct (Qle_bool y x) eqn:E; [|done].
    apply Qle_bool_iff in E. exfalso. eapply Qlt_not_le; eassumption.
Qed.

Lemma Qmax_list_spec x xs : is_max (Qmax_list x xs) (x :: xs).
Proof.
  unfold Qmax_list. revert x. induction xs as [|y ys IH]; intros x; simpl.
  - split; [left|]. intros z Hz. apply list_elem_of_singleton in Hz. subst. apply Qle_refl.
  - destruct (Qle_bool x y) eqn:E.
    + destruct (IH y) as [Hin Hle]. split.
      * right. exact Hin.
      * intros z Hz. apply elem_of_cons in Hz as [->|Hz]; [|by apply Hle].
        apply Qle_bool_iff in E. eapply Qle_trans; [exact E|]. apply Hle. left.
    + destruct (IH x) as [Hin Hle]. split.
      * apply elem_of_cons in Hin as [Hin|Hin]; [rewrite Hin; left|right; right; exact Hin].
      * intros z Hz. apply elem_of_cons in Hz as [->|Hz].
        { apply Hle. left. }
        apply elem_of_cons in Hz as [->|Hz].
        { apply Qle_bool_false in E. apply Qlt_le_weak. eapply Qlt_le_trans; [exact E|].
          apply Hle. left. }
        apply Hle. right. exact Hz.
Qed.

Lemma Qmin_list_spec x xs : is_min (Qmin_list x xs) (x :: xs).
Proof.
  unfold Qmin_list. revert x. induction xs as [|y ys IH]; intros x; simpl.
  - split; [left|]. intros z Hz. apply list_elem_of_singleton in Hz. subst. apply Qle_refl.
  - destruct (Qle_bool y x) eqn:E.
    + destruct (IH y) as [Hin Hle]. split.
      * right. exact Hin.
      * intros z Hz. apply elem_of_cons in Hz as [->|Hz]; [|by apply Hle].
        apply Qle_bool_iff in E. eapply Qle_trans; [|exact E]. apply Hle. left.
    + destruct (IH x) as [Hin Hle]. split.
      * apply elem_of_cons in Hin as [Hin|Hin]; [rewrite Hin; left|right; right; exact Hin].
      * intros z Hz. apply elem_of_cons in Hz as [->|Hz].
        { apply Hle. left. }
        apply elem_of_cons in Hz as [->|Hz].
        { apply Qle_bool_false in E. apply Qlt_le_weak. eapply Qle_lt_trans; [|exact E].
          apply Hle. left. }
        apply Hle. right. exact Hz.
Qed.




(** ** The indicator layer *)

Lemma ewm_from_length a prev xs : length (Pandas.ewm_from a prev xs) = length xs.
Proof. revert prev; induction xs as [|x xs IH]; intros prev; simpl; [done|]. by rewrite IH. Qed.

Lemma ewm_mean_length span xs : length (Pandas.ewm_mean span xs) = length xs.
Proof. destruct xs; simpl; [done|]. by rewrite ewm_from_length. Qed.

Lemma series_sub_length xs ys :
  length xs = length ys -> length (Pandas.series_sub xs ys) = length xs.
Proof. intros H. unfold Pandas.series_sub. rewrite length_zip_with. lia. Qed.

Lemma series_sub_nth xs ys t :
  (t < length xs)%nat -> (t < length ys)%nat ->
  nth t (Pandas.series_sub xs ys) 0 = nth t xs 0 - nth t ys 0.
Proof.
  unfold Pandas.series_sub. revert ys t.
  induction xs as [|x xs IH]; intros [|y ys] [|t] Hx Hy; simpl in *; try lia; try done.
  apply IH; lia.
Qed.

Lemma series_scale_nth k xs t :
  (t < length xs)%nat -> nth t (Pandas.series_scale k xs) 0 = k * nth t xs 0.
Proof.
  unfold Pandas.series_scale. revert t.
  induction xs as [|x xs IH]; intros [|t] Hx; simpl in *; try lia; try done.
  apply IH; lia.
Qed.

Lemma ewm_from_nth a prev xs t :
  (t < length xs)%nat ->
  nth t (Pandas.ewm_from a prev xs) 0
  == a * nth t xs 0 + (1 - a) * nth t (prev :: Pandas.ewm_from a prev xs) 0.
Proof.
  revert prev t; induction xs as [|x xs IH]; intros prev t Ht; simpl in Ht; [lia|].
  destruct t as [|t].
  - simpl. rewrite Qred_correct. ring.
  - cbn [Pandas.ewm_from nth]. rewrite IH by lia. reflexivity.
Qed.

Lemma ewm_mean_step span xs t :
  (S t < length xs)%nat ->
  nth (S t) (Pandas.ewm_mean span xs) 0
  == Pandas.alpha span * nth (S t) xs 0
     + (1 - Pandas.alpha span) * nth t (Pandas.ewm_mean span xs) 0.
Proof.
  destruct xs as [|x0 xs]; simpl; [lia|]. intros Ht.
  rewrite ewm_from_nth by lia. reflexivity.
Qed.

Lemma ewm_mean_seed span xs : nth 0 (Pandas.ewm_mean span xs) 0 = nth 0 xs 0.
Proof. by destruct xs. Qed.

(** The code's mean against the recurrence of the specification, for a
    price function that agrees with the series up to [Qeq]. *)
Lemma ewm_mean_reference span xs price t :
  (forall i, (i <= t)%nat -> nth i xs 0 == price i) ->
  (t < length xs)%nat ->
  nth t (Pandas.ewm_mean span xs) 0 == Reference.ema (Pandas.alpha span) price t.
Proof.
  induction t as [|t IH]; intros Hp Ht.
  - rewrite ewm_mean_seed. simpl. apply Hp. lia.
  - rewrite ewm_mean_step by lia. cbn [Reference.ema].
    rewrite IH by (try lia; intros; apply Hp; lia).
    rewrite (Hp (S t)) by lia. reflexivity.
Qed.

Lemma alpha_value span : Pandas.alpha span == 2 # (span + 1).
Proof.
  unfold Pandas.alpha. unfold Qdiv, Qinv, Qeq, Qmult, Qplus, inject_Z. simpl. lia.
Qed.

Lemma col_DIF_eq f s g c :
  col_DIF (calculate_macd f s g c)
  = Pandas.series_sub (Pandas.ewm_mean f c) (Pandas.ewm_mean s c).
Proof. reflexivity. Qed.

Lemma col_DEA_eq f s g c :
  col_DEA (calculate_macd f s g c)
  = Pandas.ewm_mean g (col_DIF (calculate_macd f s g c)).
Proof. reflexivity. Qed.

Lemma col_MACD_eq f s g c :
  col_MACD (calculate_macd f s g c)
  = Pandas.series_scale 2
      (Pandas.series_sub (col_DIF (calculate_macd f s g c))
                         (col_DEA (calculate_macd f s g c))).
Proof. reflexivity. Qed.

Lemma col_DIF_length f s g c : length (col_DIF (calculate_macd f s g c)) = length c.
Proof. rewrite col_DIF_eq, series_sub_length; rewrite !ewm_mean_length; done. Qed.

Lemma col_DEA_length f s g c : length (col_DEA (calculate_macd f s g c)) = length c.
Proof. rewrite col_DEA_eq, ewm_mean_length. apply col_DIF_length. Qed.

Lemma col_MACD_length f s g c : length (col_MACD (calculate_macd f s g c)) = length c.
Proof.
  rewrite col_MACD_eq. unfold Pandas.series_scale. rewrite length_map.
  rewrite series_sub_length; rewrite col_DIF_length; [done|].
  by rewrite col_DEA_length.
Qed.

Lemma col_DIF_reference f s g c i :
  (i < length c)%nat ->
  nth i (col_DIF (calculate_macd f s g c)) 0
  == Reference.dif f s (fun i => nth i c 0) i.
Proof.
  intros Hi. rewrite col_DIF_eq, series_sub_nth by (rewrite ewm_mean_length; lia).
  unfold Reference.dif.
  rewrite !(ewm_mean_reference _ c (fun i => nth i c 0))
    by (try lia; intros; reflexivity).
  reflexivity.
Qed.

Lemma macd_columns (fast slow signal : positive) (closes : list Q) (t : nat) :
  (t < length closes)%nat ->
  let m := calculate_macd fast slow signal closes in
  let price := fun i => nth i closes 0 in
  length (col_DIF m) = length closes /\
  length (col_DEA m) = length closes /\
  length (col_MACD m) = length closes /\
  nth t (col_DIF m) 0 == Reference.dif fast slow price t /\
  nth t (col_DEA m) 0 == Reference.dea fast slow signal price t /\
  nth t (col_MACD m) 0 == Reference.histogram fast slow signal price t.
Proof.
  intros Ht m price. subst m.
  assert (Hdea : nth t (col_DEA (calculate_macd fast slow signal closes)) 0
                 == Reference.dea fast slow signal price t).
  { unfold Reference.dea. rewrite col_DEA_eq. apply ewm_mean_reference.
    - intros i Hi. apply col_DIF_reference. lia.
    - rewrite col_DIF_length. lia. }
  split; [apply col_DIF_length|]. split; [apply col_DEA_length|].
  split; [apply col_MACD_length|].
  split; [apply col_DIF_reference; lia|]. split; [exact Hdea|].
  rewrite col_MACD_eq, series_scale_nth.
  - rewrite series_sub_nth by (rewrite ?col_DIF_length, ?col_DEA_length; lia).
    unfold Reference.histogram. rewrite Hdea, col_DIF_reference by lia.
    reflexivity.
  - rewrite series_sub_length; rewrite col_DIF_length; [lia|].
    by rewrite col_DEA_length.
Qed.



(** C3.  The exponentially weighted mean of a non-empty close series is
    seeded with the first price, ema[0] = price[0], and from then on
    follows ema[t] = alpha price[t] + (1 - alpha) ema[t-1], where alpha
    is 2 / (span + 1). *)
Theorem ema_seed_and_recurrence (span : positive) (closes : list Q) :
  closes <> [] ->
  let ema := Pandas.ewm_mean span closes in
  let a := 2 # (span + 1) in
  length ema = length closes /\
  nth 0 ema 0 = nth 0 closes 0 /\
  forall t, (1 <= t < length closes)%nat ->
    nth t ema 0 == a * nth t closes 0 + (1 - a) * nth (t - 1) ema 0.
Proof.
  intros Hne ema a. split; [apply ewm_mean_length|].
  split; [apply ewm_mean_seed|].
  intros t [Ht1 Ht2]. destruct t as [|t]; [lia|].
  replace (S t - 1)%nat with t by lia. subst ema a.
  rewrite ewm_mean_step by lia. rewrite alpha_value. reflexivity.
Qed.

Lemma ema_seed_and_recurrence_witness :
  [10; 11; 12] <> [] /\
  nth 0 (Pandas.ewm_mean 12 [10; 11; 12]) 0 = 10 /\
  nth 2 (Pandas.ewm_mean 12 [10; 11; 12]) 0
  == (2 # 13) * 12 + (1 - (2 # 13)) * nth 1 (Pandas.ewm_mean 12 [10; 11; 12]) 0.
Proof.
  assert (H : [10; 11; 12] <> ([] : list Q)) by discriminate.
  split; [exact H|].
  destruct (ema_seed_and_recurrence 12 [10; 11; 12] H) as (_ & H0 & Ht).
  split; [exact H0|]. apply (Ht 2%nat). simpl. lia.
Defined.

(** C4.  At every bar the MACD computation returns DIF = EMA(closes, fast)
    - EMA(closes, slow), DEA = the EMA of the DIF series with the same
    seeding, and histogram = 2 (DIF - DEA), the EMAs being the
    recurrences of the specification; on the golden close series with
    spans 2, 4, 2 the DIF and DEA columns are exactly the values of the
    reference recurrence, listed here in lowest terms. *)
Theorem macd_components_and_golden_vector :
  (forall (fast slow signal : positive) (closes : list Q) (t : nat),
     (t < length closes)%nat ->
     let m := calculate_macd fast slow signal closes in
     let price := fun i => nth i closes 0 in
     length (col_DIF m) = length closes /\
     length (col_DEA m) = length closes /\
     length (col_MACD m) = length closes /\
     nth t (col_DIF m) 0 == Reference.dif fast slow price t /\
     nth t (col_DEA m) 0 == Reference.dea fast slow signal price t /\
     nth t (col_DEA m) 0
     == Reference.ema (Pandas.alpha signal) (fun i => nth i (col_DIF m) 0) t /\
     nth t (col_MACD m) 0 == 2 * (nth t (col_DIF m) 0 - nth t (col_DEA m) 0)) /\
  (let m := calculate_macd 2 4 2 golden_closes in
   map Qred (col_DIF m)
   = map (fun t => Qred (Reference.dif 2 4 golden_price t)) (seq 0 10) /\
   map Qred (col_DEA m)
   = map (fun t => Qred (Reference.dea 2 4 2 golden_price t)) (seq 0 10) /\
   map Qred (col_DIF m)
   = [ 0; 4 # 15; 116 # 225; 544 # 3375; -11104 # 50625; -382436 # 759375;
       -1816924 # 11390625; 37335184 # 170859375; 1287891656 # 2562890625;
       26601962404 # 38443359375 ] /\
   map Qred (col_DEA m)
   = [ 0; 8 # 45; 272 # 675; 272 # 1125; -9968 # 151875; -814712 # 2278125;
       -2569136 # 11390625; 36133328 # 512578125; 2756449952 # 7688671875;
       22328724856 # 38443359375 ]).
Proof.
  split.
  - intros fast slow signal closes t Ht m price.
    destruct (macd_columns fast slow signal closes t Ht)
      as (L1 & L2 & L3 & H1 & H2 & H3).
    fold m in L1, L2, L3, H1, H2, H3. fold price in H1, H2, H3.
    repeat (split; [assumption|]). split.
    + subst m. rewrite col_DEA_eq. apply ewm_mean_reference.
      * intros; reflexivity.
      * rewrite col_DIF_length. exact Ht.
    + rewrite H3, H1, H2. reflexivity.
  - cbv zeta. repeat split; vm_compute; reflexivity.
Qed.

Lemma macd_components_and_golden_vector_witness :
  (3 < length golden_closes)%nat /\
  nth 3 (col_DIF (calculate_macd 12 26 9 golden_closes)) 0
  == Reference.dif 12 26 (fun i => nth i golden_closes 0) 3 /\
  nth 3 (col_MACD (calculate_macd 12 26 9 golden_closes)) 0
  == 2 * (nth 3 (col_DIF (calculate_macd 12 26 9 golden_closes)) 0
          - nth 3 (col_DEA (calculate_macd 12 26 9 golden_closes)) 0).
Proof.
  assert (H : (3 < length golden_closes)%nat) by (simpl; lia).
  split; [exact H|].
  destruct (proj1 macd_components_and_golden_vector 12%positive 26%positive
              9%positive golden_closes 3%nat H)
    as (_ & _ & _ & H1 & _ & _ & H3).
  exact (conj H1 H3).
Defined.

Lemma ewm_from_const a c prev xs :
  prev == c -> Forall (fun x => x == c) xs ->
  Forall (fun y => y == c) (Pandas.ewm_from a prev xs).
Proof.
  intros Hp Hxs. revert prev Hp. induction Hxs as [|x xs Hx Hxs IH]; intros prev Hp; simpl.
  - constructor.
  - assert (H : Qred ((1 - a) * prev + a * x) == c).
    { rewrite Qred_correct, Hp, Hx. ring. }
    constructor; [exact H|]. apply IH. exact H.
Qed.

Lemma ewm_mean_const span c xs :
  Forall (fun x => x == c) xs -> Forall (fun y => y == c) (Pandas.ewm_mean span xs).
Proof.
  intros Hxs. destruct Hxs as [|x xs Hx Hxs]; simpl; [constructor|].
  constructor; [exact Hx|]. apply ewm_from_const; assumption.
Qed.

Lemma series_sub_const c d xs ys :
  Forall (fun x => x == c) xs -> Forall (fun y => y == d) ys ->
  Forall (fun z => z == c - d) (Pandas.series_sub xs ys).
Proof.
  intros Hxs. revert ys. induction Hxs as [|x xs Hx Hxs IH]; intros ys Hys; simpl.
  - constructor.
  - destruct Hys as [|y ys Hy Hys]; [constructor|].
    unfold Pandas.series_sub. simpl. constructor.
    + by rewrite Hx, Hy.
    + apply IH. exact Hys.
Qed.

Lemma Forall_Qeq_weaken (c d : Q) xs :
  c == d -> Forall (fun x => x == c) xs -> Forall (fun x => x == d) xs.
Proof. intros Hcd H. eapply Forall_impl; [exact H|]. intros x Hx. by rewrite Hx. Qed.

(** C5.  On a constant close series the exponentially weighted mean of
    any span is that constant at every index, and the DIF and histogram
    columns of the MACD computation are zero at every index (so is the
    DEA column). *)
Theorem constant_series_indicators (fast slow signal span : positive) (c : Q)
    (closes : list Q) :
  Forall (fun x => x == c) closes ->
  let m := calculate_macd fast slow signal closes in
  length (Pandas.ewm_mean span closes) = length closes /\
  Forall (fun y => y == c) (Pandas.ewm_mean span closes) /\
  length (col_DIF m) = length closes /\
  Forall (fun y => y == 0) (col_DIF m) /\
  length (col_MACD m) = length closes /\
  Forall (fun y => y == 0) (col_MACD m) /\
  Forall (fun y => y == 0) (col_DEA m).
Proof.
  intros Hc m. subst m.
  assert (Hdif : Forall (fun y => y == 0) (col_DIF (calculate_macd fast slow signal closes))).
  { rewrite col_DIF_eq. apply (Forall_Qeq_weaken (c - c)); [ring|].
    apply series_sub_const; apply ewm_mean_const; exact Hc. }
  assert (Hdea : Forall (fun y => y == 0) (col_DEA (calculate_macd fast slow signal closes))).
  { rewrite col_DEA_eq. apply ewm_mean_const. exact Hdif. }
  split; [apply ewm_mean_length|]. split; [apply ewm_mean_const; exact Hc|].
  split; [apply col_DIF_length|]. split; [exact Hdif|].
  split; [apply col_MACD_length|]. split; [|exact Hdea].
  rewrite col_MACD_eq. unfold Pandas.series_scale.
  apply Forall_map.
  eapply Forall_impl; [apply (series_sub_const 0 0); eassumption|].
  intros x Hx. simpl. rewrite Hx. ring.
Qed.

Lemma constant_series_indicators_witness :
  Forall (fun x => x == 7) [7; 7; 7] /\
  Forall (fun y => y == 7) (Pandas.ewm_mean 12 [7; 7; 7]) /\
  Forall (fun y => y == 0) (col_DIF (calculate_macd 12 26 9 [7; 7; 7])) /\
  Forall (fun y => y == 0) (col_MACD (calculate_macd 12 26 9 [7; 7; 7])).
Proof.
  assert (H : Forall (fun x => x == 7) [7; 7; 7]) by (repeat constructor).
  split; [exact H|].
  destruct (constant_series_indicators 12 26 9 12 7 [7; 7; 7] H)
    as (_ & He & _ & Hd & _ & Hm & _).
  exact (conj He (conj Hd Hm)).
Defined.

(** ** Resampling *)

Ltac name_mod7 :=
  repeat match goal with
  | |- context [ (?a mod 7)%Z ] =>
      let q := fresh "q" in let r := fresh "r" in
      let Hq := fresh "Hq" in let Hr := fresh "Hr" in
      pose proof (Z.div_mod a 7 ltac:(lia)) as Hq;
      pose proof (Z.mod_pos_bound a 7 ltac:(lia)) as Hr;
      set (q := (a / 7)%Z) in *; set (r := (a mod 7)%Z) in *;
      clearbody q r
  | H : context [ (?a mod 7)%Z ] |- _ =>
      let q := fresh "q" in let r := fresh "r" in
      let Hq := fresh "Hq" in let Hr := fresh "Hr" in
      pose proof (Z.div_mod a 7 ltac:(lia)) as Hq;
      pose proof (Z.mod_pos_bound a 7 ltac:(lia)) as Hr;
      set (q := (a / 7)%Z) in *; set (r := (a mod 7)%Z) in *;
      clearbody q r
  end.

Lemma week_end_spec d f :
  Resample.week_end d = f <-> (Resample.weekday f = 4 /\ f - 7 < d <= f)%Z.
Proof.
  unfold Resample.week_end, Resample.weekday. split.
  - intros <-. name_mod7. lia.
  - intros [Hf Hd]. name_mod7. lia.
Qed.

Lemma week_end_mono d d' : (d <= d')%Z -> (Resample.week_end d <= Resample.week_end d')%Z.
Proof.
  intros H. 
  destruct (week_end_spec d (Resample.week_end d)) as [[H1 H2] _]; [done|].
  destruct (week_end_spec d' (Resample.week_end d')) as [[H3 H4] _]; [done|].
  revert H1 H3. unfold Resample.weekday. 
  generalize dependent (Resample.week_end d). generalize dependent (Resample.week_end d').
  intros f' Hf' f Hf H1 H3. name_mod7. lia.
Qed.

Lemma week_end_step d d' :
  (Resample.week_end d <= Resample.week_end d')%Z ->
  exists k : nat, (Resample.week_end d' = Resample.week_end d + 7 * Z.of_nat k)%Z.
Proof.
  intros H.
  destruct (week_end_spec d (Resample.week_end d)) as [[H1 _] _]; [done|].
  destruct (week_end_spec d' (Resample.week_end d')) as [[H3 _] _]; [done|].
  revert H H1 H3. unfold Resample.weekday.
  generalize (Resample.week_end d). generalize (Resample.week_end d').
  intros f' f H H1 H3. name_mod7.
  exists (Z.to_nat (q - q0)). lia.
Qed.

Lemma insert_by_date_perm x l : Resample.insert_by_date x l ≡ₚ x :: l.
Proof.
  induction l as [|y l IH]; simpl; [done|].
  destruct (fst x <=? fst y)%Z; [done|].
  rewrite IH. apply Permutation_swap.
Qed.

Lemma sort_index_perm l : Resample.sort_index l ≡ₚ l.
Proof.
  induction l as [|x l IH]; simpl; [done|].
  rewrite insert_by_date_perm. by rewrite IH.
Qed.

Lemma insert_by_date_sorted x l :
  StronglySorted date_le l -> StronglySorted date_le (Resample.insert_by_date x l).
Proof.
  induction 1 as [|y l Hl IH Hy]; simpl.
  - repeat constructor.
  - destruct (fst x <=? fst y)%Z eqn:E.
    + apply Z.leb_le in E. constructor; [by constructor|].
      constructor; [exact E|].
      eapply Forall_impl; [exact Hy|]. unfold date_le. intros; lia.
    + apply Z.leb_gt in E. constructor; [exact IH|].
      rewrite insert_by_date_perm. constructor; [unfold date_le; lia|exact Hy].
Qed.

Lemma sort_index_sorted l : StronglySorted date_le (Resample.sort_index l).
Proof.
  induction l as [|x l IH]; simpl; [constructor|]. by apply insert_by_date_sorted.
Qed.

Lemma sorted_bounds (x0 : Z * daily) l x1 y :
  StronglySorted date_le (x0 :: l) -> last (x0 :: l) = Some x1 -> y ∈ x0 :: l ->
  (fst x0 <= fst y <= fst x1)%Z.
Proof.
  revert x0. induction l as [|z l IH]; intros x0 Hs Hl Hy.
  - simpl in Hl. injection Hl as <-. apply list_elem_of_singleton in Hy as ->. lia.
  - apply StronglySorted_inv in Hs as [Hs Hx0].
    change (last (x0 :: z :: l)) with (last (z :: l)) in Hl.
    apply elem_of_cons in Hy as [->|Hy].
    + split; [lia|]. 
      assert (Hx1 : x1 ∈ z :: l) by (eapply last_Some_elem_of; done).
      rewrite Forall_forall in Hx0. apply Hx0. done.
    + destruct (IH z Hs Hl Hy) as [H1 H2]. split; [|done].
      apply Forall_inv in Hx0. unfold date_le in Hx0. lia.
Qed.

Lemma elem_of_bins rows d0 r0 d1 r1 f :
  head rows = Some (d0, r0) -> last rows = Some (d1, r1) ->
  f ∈ Resample.bins rows <->
  exists i : nat, (f = Resample.week_end d0 + 7 * Z.of_nat i)%Z /\
    (i < Z.to_nat ((Resample.week_end d1 - Resample.week_end d0) / 7 + 1))%nat.
Proof.
  intros Hh Hl. unfold Resample.bins. destruct rows as [|[d r] rows]; [done|].
  injection Hh as -> ->. rewrite Hl.
  rewrite list_elem_of_fmap. split.
  - intros (i & -> & Hi). apply elem_of_seq in Hi. exists i. split; [done|lia].
  - intros (i & -> & Hi). exists i. split; [done|]. apply elem_of_seq. lia.
Qed.

Lemma bins_sorted rows : StronglySorted Z.lt (Resample.bins rows).
Proof.
  unfold Resample.bins. destruct rows as [|[d0 r0] rows]; [constructor|].
  destruct (last _) as [[d1 r1]|]; [|constructor].
  generalize (Z.to_nat ((Resample.week_end d1 - Resample.week_end d0) / 7 + 1)).
  generalize (Resample.week_end d0). intros f0 n.
  generalize 0%nat. induction n as [|n IH]; intros s; simpl; [constructor|].
  constructor; [apply IH|].
  apply Forall_forall. intros f Hf. apply list_elem_of_fmap in Hf as (i & -> & Hi).
  apply elem_of_seq in Hi. lia.
Qed.

Lemma week_in_bins rows d r :
  StronglySorted date_le rows -> (d, r) ∈ rows ->
  Resample.week_end d ∈ Resample.bins rows.
Proof.
  intros Hs Hin. destruct rows as [|[d0 r0] rows']; [by apply elem_of_nil in Hin|].
  destruct (last ((d0, r0) :: rows')) as [[d1 r1]|] eqn:Hl.
  2:{ by rewrite last_cons in Hl; destruct (last rows'). }
  destruct (sorted_bounds _ _ _ _ Hs Hl Hin) as [H0 H1]. simpl in H0, H1.
  apply (elem_of_bins _ d0 r0 d1 r1); [done|done|].
  destruct (week_end_step d0 d (week_end_mono _ _ H0)) as [k Hk].
  destruct (week_end_step d d1 (week_end_mono _ _ H1)) as [k' Hk'].
  exists k. split; [done|].
  rewrite Hk', Hk.
  replace (Resample.week_end d0 + 7 * Z.of_nat k + 7 * Z.of_nat k' - Resample.week_end d0)%Z
    with ((Z.of_nat k + Z.of_nat k') * 7)%Z by lia.
  rewrite Z.div_mul by lia. lia.
Qed.

Lemma omap_map {A B C} (f : B -> option C) (g : A -> B) (l : list A) :
  omap f (map g l) = omap (fun x => f (g x)) l.
Proof.
  induction l as [|x l IH]; [done|].
  change (omap f (map g (x :: l)))
    with (match f (g x) with Some y => y :: omap f (map g l) | None => omap f (map g l) end).
  rewrite IH. reflexivity.
Qed.

Lemma weekly_unfold df_daily :
  Resample.weekly df_daily
  = omap (fun f => bar_of_group f
             (Resample.group f (Resample.sort_index (Resample.set_index df_daily))))
      (Resample.bins (Resample.sort_index (Resample.set_index df_daily))).
Proof.
  unfold Resample.weekly, Resample.agg, Resample.dropna_rename.
  rewrite omap_map. reflexivity.
Qed.

Lemma bar_of_group_Some f g w :
  bar_of_group f g = Some w ->
  g <> [] /\ b_date w = f /\
  head (map d_open g) = Some (b_open w) /\
  is_max (b_high w) (map d_high g) /\
  is_min (b_low w) (map d_low g) /\
  last (map d_close g) = Some (b_close w) /\
  b_volume w = fold_left Qplus (map d_amount g) 0.
Proof.
  unfold bar_of_group. destruct g as [|x g]; [done|]. intros H.
  unfold Resample.agg_first, Resample.agg_max, Resample.agg_min, Resample.agg_last in H.
  cbn [map head mbind option_bind] in H.
  destruct (last (d_close x :: map d_close g)) as [c|] eqn:Hc; [|done].
  cbn in H. injection H as <-. cbn [b_date b_open b_high b_low b_close b_volume].
  split; [done|]. split; [done|]. split; [done|].
  split; [apply Qmax_list_spec|]. split; [apply Qmin_list_spec|]. done.
Qed.

Lemma bar_of_group_nonempty f g : g <> [] -> exists w, bar_of_group f g = Some w.
Proof.
  destruct g as [|x g]; [done|]. intros _. unfold bar_of_group.
  unfold Resample.agg_first, Resample.agg_max, Resample.agg_min, Resample.agg_last.
  cbn [map head mbind option_bind].
  destruct (last (d_close x :: map d_close g)) as [c|] eqn:Hc.
  - eexists. reflexivity.
  - exfalso. rewrite last_cons in Hc. by destruct (last (map d_close g)).
Qed.

Lemma elem_of_group f rows r :
  r ∈ Resample.group f rows <-> exists d, (d, r) ∈ rows /\ Resample.week_end d = f.
Proof.
  unfold Resample.group. rewrite list_elem_of_fmap. split.
  - intros ([d r'] & -> & Hin). apply list_elem_of_filter in Hin as [Hw Hin].
    exists d. done.
  - intros (d & Hin & Hw). exists (d, r). split; [done|].
    apply list_elem_of_filter. done.
Qed.

Lemma group_interval f rows :
  Resample.weekday f = 4%Z ->
  Resample.group f rows
  = map snd (filter (fun x : Z * daily => (f - 7 < fst x <= f)%Z) rows).
Proof.
  intros Hf. unfold Resample.group. f_equal.
  apply list_filter_iff. intros [d r]. simpl. rewrite week_end_spec. tauto.
Qed.

Lemma StronglySorted_omap_dates (fs : list Z) (mk : Z -> option bar) :
  (forall f w, mk f = Some w -> b_date w = f) ->
  StronglySorted Z.lt fs -> StronglySorted Z.lt (map b_date (omap mk fs)).
Proof.
  intros Hmk. induction 1 as [|f fs Hs IH Hf]; [constructor|].
  cbn [omap list_omap]. fold (@omap list _).
  destruct (mk f) as [w|] eqn:E; [|exact IH].
  cbn [map]. constructor; [exact IH|].
  rewrite (Hmk _ _ E). apply Forall_forall. intros f' Hf'.
  apply list_elem_of_fmap in Hf' as (w' & -> & Hw').
  apply list_elem_of_omap in Hw' as (f'' & Hin & Hmk').
  rewrite (Hmk _ _ Hmk'). rewrite Forall_forall in Hf. by apply Hf.
Qed.

(** C7, amended.  Resampling a daily series to weeks groups the rows
    that carry a date by the week that ends on Friday, in date order,
    and gives one weekly bar for every such week that holds at least
    one row and no other bar: open is the first open of the week, high
    the greatest high, low the least low, close the last close and
    volume the sum of the amounts.  Only weeks without rows are dropped;
    the trailing week is therefore kept also when the series stops
    before its Friday.  For the ten trading days of two full weeks the
    two bars are the hand-computed first, max, min, last and sum. *)
Theorem weekly_resample_aggregates (df_daily : list daily) :
  let rows := Resample.sort_index (Resample.set_index df_daily) in
  let ws := Resample.weekly df_daily in
  StronglySorted Z.lt (map b_date ws) /\
  (forall f, f ∈ map b_date ws <->
     Resample.weekday f = 4%Z /\ exists d r, (d, r) ∈ rows /\ (f - 7 < d <= f)%Z) /\
  (forall w, w ∈ ws ->
     let g := map snd (filter (fun x : Z * daily =>
                                 (b_date w - 7 < fst x <= b_date w)%Z) rows) in
     head (map d_open g) = Some (b_open w) /\
     is_max (b_high w) (map d_high g) /\
     is_min (b_low w) (map d_low g) /\
     last (map d_close g) = Some (b_close w) /\
     b_volume w = fold_left Qplus (map d_amount g) 0) /\
  Resample.weekly ten_days
  = [Bar 19727 10 16 9 14 600; Bar 19734 14 19 8 17 850].
Proof.
  intros rows ws. subst ws. rewrite weekly_unfold. fold rows.
  assert (Hmk : forall f w, bar_of_group f (Resample.group f rows) = Some w -> b_date w = f).
  { intros f w H. by apply bar_of_group_Some in H as (_ & ? & _). }
  split; [|split; [|split]].
  - apply StronglySorted_omap_dates; [exact Hmk|apply bins_sorted].
  - intros f. rewrite list_elem_of_fmap. split.
    + intros (w & -> & Hw). apply list_elem_of_omap in Hw as (f & Hf & Hw).
      pose proof (bar_of_group_Some _ _ _ Hw) as (Hne & <- & _).
      destruct (Resample.group (b_date w) rows) as [|r g] eqn:Hg; [done|].
      assert (Hr : r ∈ Resample.group (b_date w) rows) by (rewrite Hg; left).
      apply elem_of_group in Hr as (d & Hin & Hwk).
      apply week_end_spec in Hwk as [Hfri Hint]. split; [done|]. by exists d, r.
    + intros (Hfri & d & r & Hin & Hint).
      assert (Hwk : Resample.week_end d = f) by (apply week_end_spec; done).
      destruct (bar_of_group_nonempty f (Resample.group f rows)) as [w Hw].
      { intros Hnil. assert (Hr : r ∈ Resample.group f rows).
        { apply elem_of_group. by exists d. }
        rewrite Hnil in Hr. by apply elem_of_nil in Hr. }
      exists w. split; [symmetry; by apply Hmk|].
      apply list_elem_of_omap. exists f. split; [|done].
      rewrite <- Hwk. apply (week_in_bins rows d r); [apply sort_index_sorted|done].
  - intros w Hw g. apply list_elem_of_omap in Hw as (f & Hf & Hw).
    pose proof (bar_of_group_Some _ _ _ Hw) as (Hne & Hd & Hrest).
    assert (Hfri : Resample.weekday f = 4%Z).
    { destruct (Resample.group f rows) as [|r g'] eqn:Hg; [done|].
      assert (Hr : r ∈ Resample.group f rows) by (rewrite Hg; left).
      apply elem_of_group in Hr as (d & Hin & Hwk).
      by apply week_end_spec in Hwk as [? _]. }
    subst g. rewrite Hd. rewrite <- (group_interval f rows Hfri). exact Hrest.
  - vm_compute. reflexivity.
Qed.

(** C7 as stated fails: eight trading days that stop on a Wednesday.
    The code keeps the bar of the unfinished second week, which the
    aggregation with "incomplete trailing groups dropped" leaves out. *)
Lemma weekly_resample_keeps_trailing_week :
  Resample.weekly (take 8 ten_days)
  = [Bar 19727 10 16 9 14 600; Bar 19734 14 17 8 15 480] /\
  Resample.weekly_spec (take 8 ten_days) = [Bar 19727 10 16 9 14 600] /\
  Resample.weekly (take 8 ten_days) <> Resample.weekly_spec (take 8 ten_days).
Proof. split; [|split]; vm_compute; [reflexivity|reflexivity|discriminate]. Qed.

Lemma weekly_resample_aggregates_witness :
  Bar 19734 14 19 8 17 850 ∈ Resample.weekly ten_days /\
  head (map d_open (drop 5 ten_days)) = Some 14 /\
  is_max 19 (map d_high (drop 5 ten_days)) /\
  is_min 8 (map d_low (drop 5 ten_days)) /\
  last (map d_close (drop 5 ten_days)) = Some 17 /\
  850 = fold_left Qplus (map d_amount (drop 5 ten_days)) 0.
Proof.
  assert (H : Bar 19734 14 19 8 17 850 ∈ Resample.weekly ten_days).
  { vm_compute. right. left. }
  split; [exact H|].
  destruct (weekly_resample_aggregates ten_days) as (_ & _ & Hagg & _).
  exact (Hagg _ H).
Defined.

(** ** The weekly pipeline *)










Lemma Qle_bool_true_iff x y : Qle_bool x y = true <-> x <= y.
Proof. apply Qle_bool_iff. Qed.

Lemma Qlt_bool_Qeq x x' y y' : x == x' -> y == y' -> Qlt_bool x y = Qlt_bool x' y'.
Proof.
  intros Hx Hy. unfold Qlt_bool. f_equal.
  destruct (Qle_bool y x) eqn:E1, (Qle_bool y' x') eqn:E2; try done.
  - apply Qle_bool_iff in E1. rewrite Hx, Hy in E1. apply Qle_bool_iff in E1. congruence.
  - apply Qle_bool_iff in E2. rewrite <- Hx, <- Hy in E2. apply Qle_bool_iff in E2. congruence.
Qed.


(** ** The orchestrator: what a step writes *)

Lemma cores_alter_neutral f (l : nat) (h : list job_state) :
  core_neutral f -> core_of <$> alter f l h = core_of <$> h.
Proof.
  intros Hf. apply list_eq. intros i. rewrite !list_lookup_fmap, list_lookup_alter.
  destruct (decide (l = i)) as [->|]; [|done].
  destruct (h !! i); [|done]. cbn. by rewrite Hf.
Qed.

Lemma cores_alter_respecting f (l : nat) (h h' : list job_state) :
  core_respecting f -> core_of <$> h = core_of <$> h' ->
  core_of <$> alter f l h = core_of <$> alter f l h'.
Proof.
  intros Hf Hh. apply list_eq. intros i. rewrite !list_lookup_fmap, !list_lookup_alter.
  apply (f_equal (fun x => x !! i)) in Hh. rewrite !list_lookup_fmap in Hh.
  destruct (decide (l = i)) as [->|]; [|done].
  destruct (h !! i), (h' !! i); cbn in *; try done.
  f_equal. apply Hf. congruence.
Qed.

Ltac by_fields := repeat intros []; reflexivity.

Lemma neutral_data_source s : core_neutral (set_data_source s).
Proof. by_fields. Qed.
Lemma neutral_market_macd m : core_neutral (set_market_macd m).
Proof. by_fields. Qed.
Lemma neutral_message s : core_neutral (set_message s).
Proof. by_fields. Qed.
Lemma neutral_current_stock s : core_neutral (set_current_stock s).
Proof. by_fields. Qed.
Lemma neutral_total n : core_neutral (set_total n).
Proof. by_fields. Qed.
Lemma neutral_mode s : core_neutral (set_mode s).
Proof. by_fields. Qed.

Lemma core_of_inv d d' :
  core_of d = core_of d' ->
  status d = status d' /\ progress d = progress d' /\ stats d = stats d'
  /\ results d = results d' /\ dict_class d = dict_class d'.
Proof. unfold core_of. intros [= -> -> -> -> ->]. done. Qed.

Lemma respecting_status s : core_respecting (set_status s).
Proof. intros d d' H. apply core_of_inv in H as (? & ? & ? & ? & ?).
  unfold core_of, dict_class in *; destruct d, d'; cbn in *; congruence. Qed.
Lemma respecting_progress n : core_respecting (set_progress n).
Proof. intros d d' H. apply core_of_inv in H as (? & ? & ? & ? & ?).
  unfold core_of, dict_class in *; destruct d, d'; cbn in *; congruence. Qed.
Lemma respecting_results rs : core_respecting (set_results rs).
Proof. intros d d' H. apply core_of_inv in H as (? & ? & ? & ? & ?).
  unfold core_of, dict_class in *; destruct d, d'; cbn in *; congruence. Qed.
Lemma respecting_tally failing result st : core_respecting (tally failing result st).
Proof. intros d d' H. apply core_of_inv in H as (? & ? & ? & ? & ?).
  unfold tally. destruct (truthy result); [|destruct (bool_decide _)];
  unfold core_of, dict_class in *; destruct d, d'; cbn in *; congruence. Qed.
Lemma respecting_neutral f : core_neutral f -> core_respecting f.
Proof. intros Hf d d' H. by rewrite !Hf. Qed.
Lemma respecting_compose f g :
  core_respecting f -> core_respecting g -> core_respecting (fun d => f (g d)).
Proof. intros Hf Hg d d' H. apply Hf, Hg, H. Qed.

(** *** The calls inside a step *)
Local Arguments Nat.leb : simpl never.
Local Arguments Nat.ltb : simpl never.

Ltac run_M :=
  unfold mbind, M_bind, mret, M_ret, gets, modify, lift, raise, update_dict,
    read_dict, try_except in *.

Section Effects.
Variable E : env.

Lemma tencent_weekly_effect symbol retries w :
  exists o src,
    tencent_weekly E symbol retries w
    = (Ok o, World (labelled src tab1 w) (STATE w) (TASK_LOCKS w) (DATA_SOURCE_HEALTH w)).
Proof.
  induction retries as [|retry rest IH]; cbn [tencent_weekly].
  - exists None, None. by destruct w.
  - destruct (stock_zh_a_hist_tx E symbol retry) as [| |[|x df]]; try exact IH.
    eexists _, (Some _). reflexivity.
Qed.

Lemma get_weekly_data_tab1_effect symbol w :
  exists o src h,
    get_weekly_data_tab1 E symbol w
    = (Ok o, World (labelled src tab1 w) (STATE w) (TASK_LOCKS w) h).
Proof.
  unfold get_weekly_data_tab1. run_M. cbn -[tencent_weekly].
  destruct (bool_decide (DATA_SOURCE_HEALTH w ≠ Some false)).
  - destruct (stock_zh_a_hist_weekly E symbol) as [e| |df]; cbn -[tencent_weekly].
    + destruct (tencent_weekly_effect symbol [0;1]%nat (set_health (Some false) w))
        as (o & src & Ht).
      rewrite Ht. exists o, src, (Some false). by destruct src.
    + destruct (tencent_weekly_effect symbol [0;1]%nat w) as (o & src & Ht).
      rewrite Ht. by exists o, src, (DATA_SOURCE_HEALTH w).
    + destruct (55 <=? frame_len df)%nat; cbn -[tencent_weekly].
      * by exists (Some df), (Some "东方财富 (stock_zh_a_hist)"), (Some true).
      * destruct (tencent_weekly_effect symbol [0;1]%nat w) as (o & src & Ht).
        rewrite Ht. by exists o, src, (DATA_SOURCE_HEALTH w).
  - cbn -[tencent_weekly].
    destruct (tencent_weekly_effect symbol [0;1]%nat w) as (o & src & Ht).
    rewrite Ht. by exists o, src, (DATA_SOURCE_HEALTH w).
Qed.

Lemma sort_key_tab1 s n a b c d e f g :
  sort_key "偏离度%"
    [ ("代码", s); ("名称", n); ("收盘价", a); ("MA55", b); ("偏离度%", cell c);
      ("DEA", d); ("历史DEA", e); ("回落比%", f); ("信号", g) ] = Ok c.
Proof. by destruct c. Qed.

Lemma sort_key_tab2 s n a c b d e g :
  sort_key "市值(亿)"
    [ ("代码", s); ("名称", n); ("收盘价", a); ("市值(亿)", VNum c); ("PB", b);
      ("Beta", d); ("DEA", e); ("信号", g) ] = Ok (Finite c).
Proof. reflexivity. Qed.

Lemma screen_frame_tab1_result params golden symbol name df r :
  screen_frame_tab1 params golden symbol name df = Ok r ->
  well_formed "偏离度%" r.
Proof.
  unfold screen_frame_tab1. intros H res Hres.
  destruct (iloc_last df) as [current|]; [|done].
  destruct (r_MA55 current) as [ma55|]; [|by simplify_eq].
  repeat match type of H with
         | (if ?b then _ else _) = _ => destruct b; [by simplify_eq|]
         end.
  simplify_eq. cbn in Hres. simplify_eq.
  split; [reflexivity|]. split; [reflexivity|]. eexists. apply sort_key_tab1.
Qed.

Lemma screen_stock_tab1_effect symbol name mode golden params w :
  TAB1_MODES !! mode = Some params ->
  exists r src h,
    screen_stock_tab1 E symbol name mode golden w
    = (Ok r, World (labelled src tab1 w) (STATE w) (TASK_LOCKS w) h)
    /\ well_formed "偏离度%" r.
Proof.
  intros Hm. unfold screen_stock_tab1, weekly_pipeline. rewrite Hm. run_M.
  destruct (get_weekly_data_tab1_effect symbol w) as (o & src & h & Hg).
  rewrite Hg. destruct o as [df|].
  2:{ exists (None, "no_data"), src, h. split; [done|]. intros res [=]. }
  destruct (frame_len df <? 100)%nat.
  { exists (None, "no_data"), src, h. split; [done|]. intros res [=]. }
  destruct (indicators df) as [rows|e].
  2:{ exists (None, "error"), src, h. split; [done|]. intros res [=]. }
  destruct (screen_frame_tab1 params golden symbol name rows) as [r|e] eqn:Hs.
  2:{ exists (None, "error"), src, h. split; [done|]. intros res [=]. }
  exists r, src, h. split; [done|]. eapply screen_frame_tab1_result; eassumption.
Qed.

Lemma screen_stock_tab1_unknown_mode symbol name mode golden w :
  TAB1_MODES !! mode = None ->
  screen_stock_tab1 E symbol name mode golden w = (Raise (KeyError mode), w).
Proof. intros Hm. unfold screen_stock_tab1. by rewrite Hm. Qed.

Lemma screen_stock_tab2_effect symbol name mode params w :
  TAB2_MODES !! mode = Some params ->
  exists r,
    screen_stock_tab2 E symbol name mode w = (Ok r, w)
    /\ well_formed "市值(亿)" r.
Proof.
  intros Hm. unfold screen_stock_tab2, fundamental_pipeline. rewrite Hm. run_M.
  assert (Hno : forall st, exists r, (Ok (None, st), w) = (Ok r, w)
                                     /\ well_formed "市值(亿)" r).
  { intros st. eexists. split; [reflexivity|]. intros res [=]. }
  destruct (fundamental E symbol [0; 1; 2]%nat) as [[market_cap [pb|]]|];
    [|apply Hno|apply Hno].
  destruct (_ || _); [apply Hno|].
  destruct (Qlt_bool market_cap _); [apply Hno|].
  destruct (calculate_beta E symbol) as [beta|]; [|apply Hno].
  destruct (Qle_bool _ beta); [apply Hno|].
  destruct (get_monthly_data_tab2 E symbol) as [df|]; [|apply Hno].
  destruct (frame_len df <? 50)%nat; [apply Hno|].
  destruct (indicators df) as [rows|e]; [|apply Hno].
  destruct (iloc_last rows) as [current|e]; [|apply Hno].
  eexists. split; [reflexivity|]. intros res Hres. cbn in Hres. simplify_eq.
  split; [reflexivity|]. split; [reflexivity|]. eexists. apply sort_key_tab2.
Qed.

Lemma screen_stock_tab2_unknown_mode symbol name mode w :
  TAB2_MODES !! mode = None ->
  screen_stock_tab2 E symbol name mode w = (Raise (KeyError mode), w).
Proof. intros Hm. unfold screen_stock_tab2. by rewrite Hm. Qed.

Lemma get_market_macd_signal_effect w :
  exists q f,
    get_market_macd_signal E w
    = (Ok q, World (alter f (STATE w tab2) (heap w)) (STATE w) (TASK_LOCKS w)
               (DATA_SOURCE_HEALTH w))
    /\ core_neutral f /\ (forall d, is_Some (market_macd d) -> is_Some (market_macd (f d))).
Proof.
  unfold get_market_macd_signal. run_M.
  assert (Hid : forall q : Q, exists q' f,
            (@Ok Q q, w) = (Ok q', World (alter f (STATE w tab2) (heap w)) (STATE w)
                                 (TASK_LOCKS w) (DATA_SOURCE_HEALTH w))
            /\ core_neutral f
            /\ (forall d, is_Some (market_macd d) -> is_Some (market_macd (f d)))).
  { intros q. exists q, id. split; [|done]. rewrite list_alter_id by done. by destruct w. }
  destruct (stock_zh_index_hist_monthly E) as [e| |df]; [apply Hid|apply Hid|].
  destruct (frame_len df <? 50)%nat; [apply Hid|].
  destruct (indicators df) as [rows|e]; [|apply Hid].
  destruct (iloc_last rows) as [current|e]; [|apply Hid].
  cbn. eexists _, _. split; [reflexivity|]. split; [apply neutral_market_macd|].
  intros d _. by destruct d.
Qed.

Lemma resolve_universe_effect ratio w :
  exists o, resolve_universe E ratio w = (o, w).
Proof.
  unfold resolve_universe. run_M. destruct (stock_info_a_code_name E); eexists; reflexivity.
Qed.

End Effects.


Section Steps.
Variable E : env.

Lemma set_lock_other c b w c' : c' <> c -> TASK_LOCKS (set_lock c b w) c' = TASK_LOCKS w c'.
Proof. intros H. cbn. by destruct (decide (c' = c)). Qed.


Lemma on_exception_cores c e w :
  cores (on_exception c e w)
  = core_of <$> alter (set_status "error") (STATE w c) (heap w).
Proof.
  unfold cores, on_exception. cbn.
  rewrite cores_alter_neutral by apply neutral_message. reflexivity.
Qed.

Lemma on_exception_frame c e w :
  STATE (on_exception c e w) = STATE w
  /\ TASK_LOCKS (on_exception c e w) = TASK_LOCKS w.
Proof. done. Qed.

(** The [try] blocks, case by case. *)
Lemma body_enter t w :
  t_pc t = AtEntry ->
  body E t w
  = (Ok (Resolving (STATE w (t_class t))),
     set_heap (alter (entered t) (STATE w (t_class t)) (heap w)) w).
Proof.
  intros Hpc. unfold body, entered, run_task_tab1_body, run_task_tab2_body.
  rewrite Hpc. destruct (t_class t); reflexivity.
Qed.

Lemma body_resolve t w l :
  t_pc t = Resolving l ->
  exists w1, STATE w1 = STATE w /\ TASK_LOCKS w1 = TASK_LOCKS w /\
    cores w1 = cores w /\
    ((exists stocks, body E t w = (Ok (InLoop l stocks 0), w1))
     \/ (exists e, body E t w = (Raise e, w1))).
Proof.
  intros Hpc. unfold body, run_task_tab1_body, run_task_tab2_body. rewrite Hpc.
  destruct (t_class t).
  - run_M. destruct (resolve_universe_effect E (t_ratio t) w) as [o Ho]. rewrite Ho.
    destruct o as [stocks|e].
    + eexists. split; [|split; [|split]]; [| | |left; eexists; reflexivity]; try done.
      unfold cores. cbn. apply cores_alter_neutral, neutral_total.
    + exists w. repeat split; try done. right. by eexists.
  - run_M. destruct (get_market_macd_signal_effect E w) as (q & f & Hq & Hf & _).
    rewrite Hq. cbn.
    destruct (alter f (STATE w tab2) (heap w) !! l) as [d|] eqn:Hd.
    2:{ eexists. split; [|split; [|split]]; [| | |right; eexists; reflexivity]; try done.
        unfold cores. cbn. by apply cores_alter_neutral. }
    destruct (market_macd d) as [m|].
    2:{ eexists. split; [|split; [|split]]; [| | |right; eexists; reflexivity]; try done.
        unfold cores. cbn. by apply cores_alter_neutral. }
    cbn.
    match goal with
    | |- context [ resolve_universe E ?r ?w0 ] =>
        destruct (resolve_universe_effect E r w0) as [o Ho]; rewrite Ho
    end.
    destruct o as [stocks|e].
    + eexists. split; [|split; [|split]]; [| | |left; eexists; reflexivity]; try done.
      unfold cores. cbn.
      rewrite cores_alter_neutral by apply neutral_total.
      rewrite cores_alter_neutral by apply neutral_message.
      by apply cores_alter_neutral.
    + eexists. split; [|split; [|split]]; [| | |right; eexists; reflexivity]; try done.
      unfold cores. cbn.
      rewrite cores_alter_neutral by apply neutral_message.
      by apply cores_alter_neutral.
Qed.

Lemma alter_compose (f g : job_state -> job_state) (l : nat) (h : list job_state) :
  alter (fun d => f (g d)) l h = alter f l (alter g l h).
Proof. symmetry. apply list_alter_alter_eq. Qed.

Lemma known_mode_dec c mode : known_mode c mode \/ ~ known_mode c mode.
Proof.
  unfold known_mode. destruct c.
  - destruct (TAB1_MODES !! mode); [left|right]; [by eexists|by intros [? ?]].
  - destruct (TAB2_MODES !! mode); [left|right]; [by eexists|by intros [? ?]].
Qed.

Lemma labelled_cores src c w h :
  core_of <$> h = core_of <$> heap w ->
  core_of <$> labelled src c (World h (STATE w) (TASK_LOCKS w) (DATA_SOURCE_HEALTH w))
  = core_of <$> heap w.
Proof.
  intros Hh. destruct src as [s|]; cbn; [|done].
  rewrite cores_alter_neutral by apply neutral_data_source. done.
Qed.

Lemma body_iterate t w l row todo i :
  t_pc t = InLoop l (row :: todo) i ->
  exists w1, STATE w1 = STATE w /\ TASK_LOCKS w1 = TASK_LOCKS w /\
    ((known_mode (t_class t) (t_mode t) /\
      exists r, body E t w = (Ok (InLoop l todo (S i)), w1) /\
        well_formed (fst (ranking (t_class t))) r /\
        cores w1
        = core_of <$> alter (fun d => tally (failing (t_class t)) (fst r) (snd r)
                                        (set_progress (i + 1) d)) l (heap w))
     \/ (~ known_mode (t_class t) (t_mode t) /\
         body E t w = (Raise (KeyError (t_mode t)), w1) /\
         heap w1 = alter (set_current_stock (fst row +:+ " " +:+ snd row)) l
                     (alter (set_progress (i + 1)) l (heap w)))).
Proof.
  intros Hpc. unfold body, run_task_tab1_body, run_task_tab2_body, known_mode.
  rewrite Hpc. destruct (t_class t); cbn [failing ranking fst].
  - destruct (TAB1_MODES !! t_mode t) as [params|] eqn:Hm.
    + run_M. cbn -[screen_stock_tab1].
      match goal with
      | |- context [ screen_stock_tab1 E ?a ?b ?c ?d ?w0 ] =>
          destruct (screen_stock_tab1_effect E a b c d params w0 Hm)
            as (r & src & h & Hs & Hwf); rewrite Hs
      end.
      eexists. split; [|split]; [| |left; split; [by eexists|]; exists r;
                                    split; [reflexivity|split; [exact Hwf|]]];
        try done.
      unfold cores. cbn -[labelled].
      rewrite (alter_compose (tally ["no_data"; "error"] (fst r) (snd r))
                 (set_progress (i + 1))).
      apply cores_alter_respecting; [apply respecting_tally|].
      destruct src as [s|]; cbn.
      * rewrite cores_alter_neutral by apply neutral_data_source.
        apply cores_alter_neutral, neutral_current_stock.
      * apply cores_alter_neutral, neutral_current_stock.
    + run_M. cbn -[screen_stock_tab1].
      rewrite screen_stock_tab1_unknown_mode by done.
      eexists. split; [|split]; [| |right; split; [by intros [? ?]|split; reflexivity]];
        done.
  - destruct (TAB2_MODES !! t_mode t) as [params|] eqn:Hm.
    + run_M. cbn -[screen_stock_tab2].
      match goal with
      | |- context [ screen_stock_tab2 E ?a ?b ?c ?w0 ] =>
          destruct (screen_stock_tab2_effect E a b c params w0 Hm)
            as (r & Hs & Hwf); rewrite Hs
      end.
      eexists. split; [|split]; [| |left; split; [by eexists|]; exists r;
                                    split; [reflexivity|split; [exact Hwf|]]];
        try done.
      unfold cores. cbn.
      rewrite (alter_compose
                 (tally ["no_fundamental"; "no_monthly_data"; "error"] (fst r) (snd r))
                 (set_progress (i + 1))).
      apply cores_alter_respecting; [apply respecting_tally|].
      apply cores_alter_neutral, neutral_current_stock.
    + run_M. cbn -[screen_stock_tab2].
      rewrite screen_stock_tab2_unknown_mode by done.
      eexists. split; [|split]; [| |right; split; [by intros [? ?]|split; reflexivity]];
        done.
Qed.

Lemma sorted_keyed nan_order key reverse rs :
  (exists krs rs', keyed key rs = Ok krs /\ sorted nan_order key reverse rs = Ok rs')
  \/ (exists e, keyed key rs = Raise e /\ sorted nan_order key reverse rs = Raise e).
Proof.
  unfold sorted. destruct (keyed key rs) as [krs|e]; [left|right; by eexists].
  exists krs. destruct (existsb _ krs); by eexists.
Qed.

Lemma body_finish t w l i :
  t_pc t = InLoop l [] i ->
  (exists d krs rs,
     heap w !! l = Some d /\
     keyed (fst (ranking (t_class t))) (results d) = Ok krs /\
     sorted (sorted_nan E) (fst (ranking (t_class t))) (snd (ranking (t_class t)))
       (results d) = Ok rs /\
     body E t w
     = (Ok Returned,
        set_heap (alter (set_message (done_message (length rs))) l
                    (alter (set_status "completed") l
                       (alter (set_results rs) l (heap w)))) w))
  \/ ((forall d, heap w !! l = Some d ->
         exists e, keyed (fst (ranking (t_class t))) (results d) = Raise e)
      /\ exists e, body E t w = (Raise e, w)).
Proof.
  intros Hpc. unfold body, run_task_tab1_body, run_task_tab2_body.
  rewrite Hpc. destruct (t_class t); cbn [ranking fst snd]; run_M.
  - destruct (heap w !! l) as [d|] eqn:Hd; [|right; split; [done|by eexists]].
    destruct (sorted_keyed (sorted_nan E) "偏离度%" false (results d))
      as [(krs & rs & Hk & Hs)|(e & Hk & Hs)]; rewrite Hs.
    + left. exists d, krs, rs. done.
    + right. split; [|by eexists]. intros d1 [= <-]. by exists e.
  - destruct (heap w !! l) as [d|] eqn:Hd; [|right; split; [done|by eexists]].
    destruct (sorted_keyed (sorted_nan E) "市值(亿)" true (results d))
      as [(krs & rs & Hk & Hs)|(e & Hk & Hs)]; rewrite Hs.
    + left. exists d, krs, rs. done.
    + right. split; [|by eexists]. intros d1 [= <-]. by exists e.
Qed.

Lemma failed_cores c e w1 w l f :
  STATE w1 = STATE w ->
  cores w1 = core_of <$> alter f l (heap w) ->
  cores (set_lock c false (on_exception c e w1))
  = core_of <$> alter (set_status "error") (STATE w c) (alter f l (heap w)).
Proof.
  intros HS Hc. change (cores (set_lock c false (on_exception c e w1)))
    with (cores (on_exception c e w1)).
  rewrite on_exception_cores, HS.
  apply cores_alter_respecting; [apply respecting_status|exact Hc].
Qed.

Lemma thread_step_spec t w :
  let t' := fst (thread_step E t w) in
  let w' := snd (thread_step E t w) in
  STATE w' = STATE w /\
  t' = at_pc (t_pc t') t /\
  (forall c', c' <> t_class t -> TASK_LOCKS w' c' = TASK_LOCKS w c') /\
  step_effect t w t' w'.
Proof.
  unfold thread_step. destruct (t_pc t) as [|l|l [|row todo] i|] eqn:Hpc.
  - (* at the entry *)
    destruct (TASK_LOCKS w (t_class t)) eqn:Hlock; cbn zeta.
    + cbn [fst snd]. split; [done|]. split; [done|]. split; [done|].
      apply effect_busy; try done. apply on_exception_cores.
    + unfold guarded. rewrite body_enter by done. cbn [fst snd].
      split; [done|]. split; [done|].
      split; [intros c' Hc'; cbn; by destruct (decide (c' = t_class t))|].
      apply effect_enter; try done. cbn. by destruct (decide (t_class t = t_class t)).
  - (* resolving the universe *)
    unfold guarded.
    destruct (body_resolve t w l Hpc) as (w1 & HS & HL & Hc & [[stocks Hb]|[e Hb]]);
      rewrite Hb; cbn [fst snd].
    + split; [done|]. split; [done|]. split; [intros; by rewrite HL|].
      by eapply effect_resolved.
    + split; [done|]. split; [done|].
      split; [intros c' Hc'; cbn; destruct (decide (c' = t_class t)); [done|by rewrite HL]|].
      apply (effect_failed _ _ _ _ l id);
        [by rewrite Hpc|done|cbn; by destruct (decide (t_class t = t_class t))
        |intros ? ? ? Hpc'; congruence|intros ? ? Hpc'; congruence|done|].
      apply failed_cores; [done|]. rewrite list_alter_id by done. exact Hc.
  - (* the loop is over *)
    unfold guarded.
    destruct (body_finish t w l i Hpc) as [(d & krs & rs & Hd & Hk & Hs & Hb)|[Hno [e Hb]]];
      rewrite Hb; cbn [fst snd].
    + split; [done|]. split; [done|].
      split; [intros c' Hc'; cbn; by destruct (decide (c' = t_class t))|].
      apply (effect_completed _ _ _ _ l i d rs); try done.
      * cbn. by destruct (decide (t_class t = t_class t)).
      * by exists krs.
      * unfold cores. cbn.
        rewrite cores_alter_neutral by apply neutral_message.
        by rewrite (alter_compose (set_status "completed") (set_results rs)).
    + split; [done|]. split; [done|].
      split; [intros c' Hc'; cbn; by destruct (decide (c' = t_class t))|].
      apply (effect_failed _ _ _ _ l id);
        [by rewrite Hpc|done|cbn; by destruct (decide (t_class t = t_class t))
        |intros ? ? ? Hpc'; congruence|intros ? d _ Hd; by apply Hno|done|].
      apply failed_cores; [done|]. by rewrite list_alter_id.
  - (* one iteration *)
    unfold guarded.
    destruct (body_iterate t w l row todo i Hpc)
      as (w1 & HS & HL & [(Hk & r & Hb & Hwf & Hc)|(Hk & Hb & Hh)]);
      rewrite Hb; cbn [fst snd].
    + split; [done|]. split; [done|]. split; [intros; by rewrite HL|].
      by eapply effect_iterated.
    + split; [done|]. split; [done|].
      split; [intros c' Hc'; cbn; destruct (decide (c' = t_class t)); [done|by rewrite HL]|].
      apply (effect_failed _ _ _ _ l
               (fun d => set_current_stock (fst row +:+ " " +:+ snd row)
                           (set_progress (i + 1) d)));
        [by rewrite Hpc|done|cbn; by destruct (decide (t_class t = t_class t))
        |intros; exact Hk|intros ? ? Hpc'; congruence|by intros []|].
      apply failed_cores; [done|]. unfold cores.
      by rewrite Hh, (alter_compose (set_current_stock _) (set_progress _)).
  - (* returned *)
    cbn. split; [done|]. split; [by destruct t; cbn in *; subst|]. split; [done|].
    by apply effect_idle.
Qed.

End Steps.


(** ** The invariant of the running system *)

Lemma invariant_initial : invariant initial_system.
Proof.
  split.
  - intros []; eexists; split; reflexivity.
  - intros tid t l H. cbn in H. by rewrite lookup_nil in H.
  - intros tid1 tid2 t1 t2 H. cbn in H. by rewrite lookup_nil in H.
  - intros [] d [= <-]; cbn; done.
Qed.

Section StartPreservation.
Variable E : env.

Lemma invariant_start tab mode ratio golden s :
  invariant s -> invariant (snd (start tab mode ratio golden s)).
Proof.
  intros [Hst Hal Hsi Hru]. unfold start. cbn [snd].
  destruct (class_of tab) as [c|]; [|by split].
  assert (Hlt : forall c', (STATE (globals s) c' < length (heap (globals s)))%nat).
  { intros c'. destruct (Hst c') as (d & Hd & _). by apply lookup_lt_Some in Hd. }
  split; cbn [globals pool heap STATE TASK_LOCKS set_STATE set_heap].
  - intros c'. destruct (decide (c' = c)) as [->|Hne].
    + rewrite lookup_app_r by done. rewrite Nat.sub_diag. eexists. split; [reflexivity|].
      by destruct c.
    + rewrite lookup_app_l by apply Hlt. apply Hst.
  - intros tid t l Ht Ha. apply lookup_app_Some in Ht as [Ht|[_ Ht]].
    + destruct (Hal tid t l Ht Ha) as (Hlock & d & Hd & Hrest).
      split; [exact Hlock|]. exists d. split; [|exact Hrest].
      rewrite lookup_app_l; [done|]. by apply lookup_lt_Some in Hd.
    + apply list_lookup_singleton_Some in Ht as [_ <-]. done.
  - intros tid1 tid2 t1 t2 H1 H2 A1 A2.
    apply lookup_app_Some in H1 as [H1|[_ H1]];
      [|apply list_lookup_singleton_Some in H1 as [_ <-]; by destruct A1].
    apply lookup_app_Some in H2 as [H2|[_ H2]];
      [|apply list_lookup_singleton_Some in H2 as [_ <-]; by destruct A2].
    by eapply Hsi.
  - intros c' d. destruct (decide (c' = c)) as [->|Hne].
    + rewrite lookup_app_r by done. rewrite Nat.sub_diag. intros [= <-].
      by destruct c.
    + rewrite lookup_app_l by apply Hlt. intros Hd Hs.
      destruct (Hru c' d Hd Hs) as (tid & t & Ht & Hc & Ha).
      exists tid, t. split; [|done]. by apply lookup_app_l_Some.
Qed.

End StartPreservation.

(** *** Reading a dictionary after a step *)

Lemma cores_lookup w' (H : list job_state) (l : nat) :
  cores w' = core_of <$> H ->
  (forall d', heap w' !! l = Some d' ->
     exists d0, H !! l = Some d0 /\ core_of d' = core_of d0) /\
  (forall d0, H !! l = Some d0 ->
     exists d', heap w' !! l = Some d' /\ core_of d' = core_of d0).
Proof.
  unfold cores. intros Hc. apply (f_equal (fun x => x !! l)) in Hc.
  rewrite !list_lookup_fmap in Hc. split.
  - intros d' Hd'. rewrite Hd' in Hc. destruct (H !! l) as [d0|]; [|done].
    exists d0. split; [done|]. cbn in Hc. congruence.
  - intros d0 Hd0. rewrite Hd0 in Hc. destruct (heap w' !! l) as [d'|]; [|done].
    exists d'. split; [done|]. cbn in Hc. congruence.
Qed.

Lemma lookup_alter_pick (f : job_state -> job_state) (a l : nat) (h : list job_state) :
  alter f a h !! l = pick (bool_decide (a = l)) f <$> h !! l.
Proof.
  rewrite list_lookup_alter. unfold pick.
  destruct (decide (a = l)) as [->|Hne].
  - by rewrite bool_decide_eq_true_2.
  - rewrite bool_decide_eq_false_2 by done. by destruct (h !! l).
Qed.

Lemma dict_class_status s d : dict_class (set_status s d) = dict_class d.
Proof. by destruct d. Qed.

(** Every step, seen from any dictionary: a function [F] on the cores,
    harmless unless the dictionary is the thread's own. *)
Lemma step_frame t w t' w' l :
  step_effect t w t' w' ->
  exists F : job_state -> job_state,
    (forall d', heap w' !! l = Some d' ->
       exists d, heap w !! l = Some d /\ core_of d' = core_of (F d)) /\
    (forall d, heap w !! l = Some d ->
       exists d', heap w' !! l = Some d' /\ core_of d' = core_of (F d)) /\
    (forall d, dict_class (F d) = dict_class d
               \/ (l = STATE w (t_class t) /\ dict_class (F d) = t_class t)) /\
    (own t w <> Some l ->
     forall d, progress (F d) = progress d /\ stats (F d) = stats d
               /\ results (F d) = results d
               /\ (status (F d) = status d
                   \/ (l = STATE w (t_class t) /\ status (F d) = "error"))).
Proof.
  intros Heff.
  assert (Hid : forall H, cores w' = core_of <$> H -> H = heap w ->
            exists F : job_state -> job_state,
    (forall d', heap w' !! l = Some d' ->
       exists d, heap w !! l = Some d /\ core_of d' = core_of (F d)) /\
    (forall d, heap w !! l = Some d ->
       exists d', heap w' !! l = Some d' /\ core_of d' = core_of (F d)) /\
    (forall d, dict_class (F d) = dict_class d
               \/ (l = STATE w (t_class t) /\ dict_class (F d) = t_class t)) /\
    (own t w <> Some l ->
     forall d, progress (F d) = progress d /\ stats (F d) = stats d
               /\ results (F d) = results d
               /\ (status (F d) = status d
                   \/ (l = STATE w (t_class t) /\ status (F d) = "error")))).
  { intros H Hc ->. destruct (cores_lookup w' (heap w) l Hc) as [H1 H2].
    exists id. repeat split; auto. }
  destruct Heff as [_ _ _ Hc|_ _ _ _ Hc|Hpc Hlock _ _ Hc|lo stocks _ _ _ Hc
                   |lo row todo i r Hpc _ _ _ _ Hc|lo i d0 rs Hpc _ _ _ _ Hc
                   |lo f Ha _ _ _ _ Hf Hc].
  - by apply (Hid (heap w)).
  - destruct (cores_lookup w' _ l Hc) as [H1 H2].
    exists (pick (bool_decide (STATE w (t_class t) = l)) (set_status "error")).
    split; [|split; [|split]].
    + intros d' Hd'. destruct (H1 d' Hd') as (d1 & Hd1 & Hcd).
      rewrite lookup_alter_pick in Hd1.
      destruct (heap w !! l) as [d|]; [|done]. injection Hd1 as <-. by exists d.
    + intros d Hd. apply H2. rewrite lookup_alter_pick, Hd. done.
    + intros d. left. unfold pick. destruct (bool_decide _); by destruct d.
    + intros _ d. unfold pick. case_bool_decide; [|by auto].
      destruct d; cbn; auto 10.
  - destruct (cores_lookup w' _ l Hc) as [H1 H2].
    exists (pick (bool_decide (STATE w (t_class t) = l)) (entered t)).
    split; [|split; [|split]].
    + intros d' Hd'. destruct (H1 d' Hd') as (d1 & Hd1 & Hcd).
      rewrite lookup_alter_pick in Hd1.
      destruct (heap w !! l) as [d|]; [|done]. injection Hd1 as <-. by exists d.
    + intros d Hd. apply H2. rewrite lookup_alter_pick, Hd. done.
    + intros d. unfold pick. case_bool_decide; [|by left].
      unfold entered. destruct (t_class t) eqn:Hcl.
      * right. split; [done|]. by destruct d.
      * left. by destruct d.
    + intros Hown d. unfold own in Hown. rewrite Hpc, Hlock in Hown.
      unfold pick. case_bool_decide; [congruence|]. auto.
  - by apply (Hid (heap w)).
  - destruct (cores_lookup w' _ l Hc) as [H1 H2].
    exists (pick (bool_decide (lo = l))
              (fun d => tally (failing (t_class t)) (fst r) (snd r)
                          (set_progress (i + 1) d))).
    split; [|split; [|split]].
    + intros d' Hd'. destruct (H1 d' Hd') as (d1 & Hd1 & Hcd).
      rewrite lookup_alter_pick in Hd1.
      destruct (heap w !! l) as [d|]; [|done]. injection Hd1 as <-. by exists d.
    + intros d Hd. apply H2. rewrite lookup_alter_pick, Hd. done.
    + intros d. left. unfold pick. case_bool_decide; [|done].
      unfold tally. destruct (truthy _); [|destruct (bool_decide _)]; by destruct d.
    + intros Hown d. unfold own in Hown. rewrite Hpc in Hown.
      unfold pick. case_bool_decide; [congruence|]. auto.
  - destruct (cores_lookup w' _ l Hc) as [H1 H2].
    exists (pick (bool_decide (lo = l))
              (fun d => set_status "completed" (set_results rs d))).
    split; [|split; [|split]].
    + intros d' Hd'. destruct (H1 d' Hd') as (d1 & Hd1 & Hcd).
      rewrite lookup_alter_pick in Hd1.
      destruct (heap w !! l) as [d|]; [|done]. injection Hd1 as <-. by exists d.
    + intros d Hd. apply H2. rewrite lookup_alter_pick, Hd. done.
    + intros d. left. unfold pick. case_bool_decide; [|done]. by destruct d.
    + intros Hown d. unfold own in Hown. rewrite Hpc in Hown.
      unfold pick. case_bool_decide; [congruence|]. auto.
  - destruct (cores_lookup w' _ l Hc) as [H1 H2].
    exists (fun d => pick (bool_decide (STATE w (t_class t) = l)) (set_status "error")
                       (pick (bool_decide (lo = l)) f d)).
    split; [|split; [|split]].
    + intros d' Hd'. destruct (H1 d' Hd') as (d1 & Hd1 & Hcd).
      rewrite !lookup_alter_pick in Hd1.
      destruct (heap w !! l) as [d|]; [|done]. injection Hd1 as <-. by exists d.
    + intros d Hd. apply H2. rewrite !lookup_alter_pick, Hd. done.
    + intros d. left. unfold pick. destruct (Hf d) as (_ & _ & _ & Hcl).
      destruct (bool_decide (STATE w (t_class t) = l)), (bool_decide (lo = l));
        unfold id; rewrite ?dict_class_status; done.
    + intros Hown d.
      assert (Hlo : lo <> l).
      { intros ->. apply Hown. unfold own. destruct (t_pc t); cbn in Ha; congruence. }
      unfold pick. rewrite (bool_decide_eq_false_2 (lo = l)) by done.
      case_bool_decide; [|by auto]. destruct d; cbn; auto 10.
Qed.

Lemma core_props c a b :
  core_of a = core_of b ->
  status a = status b /\ progress a = progress b /\ dict_class a = dict_class b /\
  (counts_ok b -> counts_ok a) /\ (sortable c b -> sortable c a).
Proof.
  intros H. apply core_of_inv in H as (Hs & Hp & Hst & Hr & Hc).
  unfold counts_ok, sortable. rewrite Hp, Hst, Hr. done.
Qed.

Lemma entered_fields t d :
  status (entered t d) = "running" /\ progress (entered t d) = 0%nat /\
  stats (entered t d) = Stats 0 0 0 /\ results (entered t d) = [] /\
  (dict_class d = t_class t -> dict_class (entered t d) = t_class t).
Proof. unfold entered. destruct (t_class t) eqn:Hc, d; cbn; done. Qed.

Lemma tally_fields c r i d :
  well_formed (fst (ranking c)) r ->
  counts_ok d -> sortable c d -> progress d = i ->
  let d' := tally (failing c) (fst r) (snd r) (set_progress (i + 1) d) in
  counts_ok d' /\ sortable c d' /\ progress d' = S i /\
  status d' = status d /\ dict_class d' = dict_class d.
Proof.
  intros Hwf (H1 & H2 & H3) Hs Hp d'. subst d'. unfold tally.
  destruct r as [[res|] st]; cbn [fst snd].
  - destruct (Hwf res eq_refl) as (_ & Htr & q & Hq). rewrite Htr.
    destruct d as [? ? ? ? ? rs [su fa ma] ? ? ? ?]; cbn in *.
    unfold counts_ok, sortable; cbn. rewrite length_app. cbn.
    split; [lia|]. split; [|split; [lia|done]].
    apply Forall_app. split; [done|]. constructor; [by exists q|constructor].
  - cbn [truthy]. destruct (bool_decide _);
      destruct d as [? ? ? ? ? rs [su fa ma] ? ? ? ?]; cbn in *;
      unfold counts_ok, sortable; cbn; (split; [lia|]); (split; [done|]);
      (split; [lia|done]).
Qed.

(** After a step the thread has returned, or it holds the dictionary
    that was its own in the step, with the lock of its class held. *)
Lemma step_alias t w t' w' :
  step_effect t w t' w' ->
  t_pc t' = Returned \/
  (alias (t_pc t') = own t w /\ is_Some (own t w) /\
   (TASK_LOCKS w' (t_class t) = true
    \/ (is_Some (alias (t_pc t)) /\ TASK_LOCKS w' = TASK_LOCKS w))).
Proof.
  intros [Hp Hp' _ _|_ _ Hp' _ _|Hpc Hlock Hp' Hl' _|lo stocks Hpc Hp' HL _
         |lo row todo i r Hpc Hp' _ HL _ _|lo i d0 rs Hpc Hp' _ _ _ _
         |lo f Ha Hp' _ _ _ _ _]; auto.
  - right. unfold own. rewrite Hp', Hpc, Hlock. cbn. eauto.
  - right. unfold own. rewrite Hp', Hpc. cbn. eauto 6.
  - right. unfold own. rewrite Hp', Hpc. cbn. eauto 6.
Qed.

(** The counters of the thread's own dictionary after a step that
    leaves the thread running. *)
Lemma step_own_counts t w t' w' lo d d' :
  step_effect t w t' w' -> alias (t_pc t') = Some lo ->
  heap w !! lo = Some d -> heap w' !! lo = Some d' ->
  dict_class d = t_class t ->
  (is_Some (alias (t_pc t)) ->
   counts_ok d /\ sortable (t_class t) d /\ progress d = iterations_done (t_pc t)) ->
  dict_class d' = t_class t /\ counts_ok d' /\ sortable (t_class t) d'
  /\ progress d' = iterations_done (t_pc t').
Proof.
  intros Heff Ha' Hd Hd' Hcl Hpre.
  destruct Heff as [_ Hp' _ _|_ _ Hp' _ _|Hpc Hlock Hp' _ Hc|l stocks Hpc Hp' _ Hc
                   |l row todo i r Hpc Hp' _ _ Hwf Hc|l i d0 rs _ Hp' _ _ _ _
                   |l f _ Hp' _ _ _ _ _];
    try (rewrite Hp' in Ha'; done).
  - rewrite Hp' in Ha'. injection Ha' as <-.
    destruct (cores_lookup w' _ (STATE w (t_class t)) Hc) as [H1 _].
    destruct (H1 d' Hd') as (d1 & Hd1 & Hcore).
    rewrite list_lookup_alter_eq, Hd in Hd1. injection Hd1 as <-.
    destruct (core_props (t_class t) _ _ Hcore) as (_ & Hp & Hcl' & Hco & Hso).
    destruct (entered_fields t d) as (_ & Hp0 & Hs0 & Hr0 & Hc0).
    rewrite Hp' . cbn. split; [rewrite Hcl'; by apply Hc0|].
    split; [apply Hco; unfold counts_ok; rewrite Hp0, Hs0, Hr0; done|].
    split; [apply Hso; unfold sortable; rewrite Hr0; constructor|].
    by rewrite Hp.
  - rewrite Hp' in Ha'. injection Ha' as <-.
    destruct (cores_lookup w' _ l Hc) as [H1 _].
    destruct (H1 d' Hd') as (d1 & Hd1 & Hcore).
    assert (d1 = d) as -> by congruence.
    destruct (core_props (t_class t) _ _ Hcore) as (_ & Hp & Hcl' & Hco & Hso).
    destruct Hpre as (P1 & P2 & P3); [rewrite Hpc; by eexists|].
    rewrite Hpc in P3. rewrite Hp'. cbn in *.
    split; [congruence|]. split; [auto|]. split; [auto|]. congruence.
  - rewrite Hp' in Ha'. injection Ha' as <-.
    destruct (cores_lookup w' _ l Hc) as [H1 _].
    destruct (H1 d' Hd') as (d1 & Hd1 & Hcore).
    rewrite list_lookup_alter_eq, Hd in Hd1. injection Hd1 as <-.
    destruct (core_props (t_class t) _ _ Hcore) as (_ & Hp & Hcl' & Hco & Hso).
    destruct Hpre as (P1 & P2 & P3); [rewrite Hpc; by eexists|].
    rewrite Hpc in P3. cbn in P3.
    destruct (tally_fields (t_class t) r i d Hwf P1 P2 P3) as (T1 & T2 & T3 & _ & T5).
    rewrite Hp'. cbn.
    split; [congruence|]. split; [auto|]. split; [auto|]. congruence.
Qed.

(** The published dictionary after a step in which its owner returns is
    not left in the status 'running'. *)
Lemma step_returned_status t w t' w' d' :
  step_effect t w t' w' -> t_pc t' = Returned ->
  own t w = Some (STATE w (t_class t)) ->
  heap w' !! STATE w (t_class t) = Some d' ->
  status d' <> "running".
Proof.
  intros Heff Hret Hown Hd'.
  destruct Heff as [Hp _ _ _|Hp Hlock _ _ _|_ _ Hp' _ _|l stocks _ Hp' _ _
                   |l row todo i r _ Hp' _ _ _ _|l i d0 rs Hpc _ _ _ _ Hc
                   |l f Ha _ _ _ _ _ Hc];
    try (rewrite Hp' in Hret; done).
  - unfold own in Hown. by rewrite Hp in Hown.
  - unfold own in Hown. by rewrite Hp, Hlock in Hown.
  - unfold own in Hown. rewrite Hpc in Hown. injection Hown as ->.
    destruct (cores_lookup w' _ (STATE w (t_class t)) Hc) as [H1 _].
    destruct (H1 d' Hd') as (d1 & Hd1 & Hcore).
    rewrite list_lookup_alter_eq in Hd1.
    destruct (heap w !! STATE w (t_class t)) as [d|]; [|done]. injection Hd1 as <-.
    destruct (core_props (t_class t) _ _ Hcore) as (-> & _). by destruct d.
  - destruct (cores_lookup w' _ (STATE w (t_class t)) Hc) as [H1 _].
    destruct (H1 d' Hd') as (d1 & Hd1 & Hcore).
    rewrite list_lookup_alter_eq in Hd1.
    destruct (alter f l (heap w) !! STATE w (t_class t)) as [d|]; [|done].
    injection Hd1 as <-.
    destruct (core_props (t_class t) _ _ Hcore) as (-> & _). by destruct d.
Qed.

Section StepPreservation.
Variable E : env.

Lemma invariant_step tid s :
  invariant s -> invariant (run_thread E tid s).
Proof.
  intros Hinv. unfold run_thread. destruct s as [w pl].
  destruct Hinv as [Hst Hal Hsi Hru]. cbn [globals pool] in *.
  destruct (pl !! tid) as [t|] eqn:Ht; [|by split].
  pose proof (thread_step_spec E t w) as (HS & Hat & Hlk & Heff).
  destruct (thread_step E t w) as [t' w'] eqn:Hstep. cbn [fst snd] in *.
  remember (t_class t) as c eqn:Hcls.
  assert (Hcl' : t_class t' = c) by (rewrite Hat, Hcls; done).
  (* the thread's own dictionary is of its class *)
  assert (Hown_class : forall lo, own t w = Some lo ->
            exists d, heap w !! lo = Some d /\ dict_class d = c).
  { intros lo Ho. unfold own in Ho. destruct (t_pc t) as [|l|l todo i|] eqn:Hpc.
    - rewrite <- Hcls in Ho. destruct (TASK_LOCKS w c); [done|]. injection Ho as <-. apply Hst.
    - injection Ho as <-.
      destruct (Hal tid t l Ht ltac:(by rewrite Hpc)) as (_ & d & ? & ? & _).
      exists d. by rewrite Hcls.
    - injection Ho as <-.
      destruct (Hal tid t l Ht ltac:(by rewrite Hpc)) as (_ & d & ? & ? & _).
      exists d. by rewrite Hcls.
    - done. }
  (* another running thread never holds the dictionary this step rewrites *)
  assert (Hother : forall tid2 t2 l2,
            tid2 <> tid -> pl !! tid2 = Some t2 -> alias (t_pc t2) = Some l2 ->
            own t w <> Some l2 /\
            (t_class t2 = c -> TASK_LOCKS w' = TASK_LOCKS w)).
  { intros tid2 t2 l2 Hne Ht2 Ha2.
    destruct (Hal tid2 t2 l2 Ht2 Ha2) as (Hlock2 & d2 & Hd2 & Hc2 & _).
    destruct (decide (t_class t2 = c)) as [Heq|Hneq].
    - assert (Hinactive : alias (t_pc t) = None).
      { destruct (alias (t_pc t)) as [l|] eqn:Ha; [|done].
        exfalso. apply Hne. eapply (Hsi tid2 tid t2 t); eauto. congruence. }
      assert (Hnone : own t w = None).
      { unfold own. destruct (t_pc t); try done. rewrite <- Hcls, <- Heq, Hlock2. done. }
      split; [by rewrite Hnone|]. intros _.
      destruct Heff as [_ _ HL _|_ _ _ HL _|Hpc Hlock _ _ _|lo stocks Hpc _ _ _
                       |lo row todo i r Hpc _ _ _ _ _|lo i d0 rs Hpc _ _ _ _ _
                       |lo f Ha _ _ _ _ _ _]; try done.
      + rewrite <- Hcls, <- Heq, Hlock2 in Hlock. done.
      + by rewrite Hpc in Hinactive.
      + by rewrite Hpc in Hinactive.
      + by rewrite Hpc in Hinactive.
      + by rewrite Ha in Hinactive.
    - split; [|done]. intros Ho. destruct (Hown_class l2 Ho) as (d & Hd & Hc).
      congruence. }
  split; cbn [globals pool].
  - (* the published dictionaries *)
    intros c0. rewrite HS. destruct (Hst c0) as (d & Hd & Hc0).
    destruct (step_frame t w t' w' (STATE w c0) Heff) as (F & _ & H2 & Hclass & _).
    destruct (H2 d Hd) as (d' & Hd' & Hcore). exists d'. split; [done|].
    destruct (core_props c0 _ _ Hcore) as (_ & _ & -> & _).
    rewrite <- Hcls in Hclass. destruct (Hclass d) as [->|[Heq ->]]; [done|].
    destruct (Hst c) as (dc & Hdc & Hcc). congruence.
  - (* the running threads and their dictionaries *)
    intros tid2 t2 l2 Ht2 Ha2.
    apply list_lookup_insert_Some in Ht2 as [(<- & <- & Hlen)|(Hne & Ht2)].
    + (* the thread that stepped *)
      rewrite Hcl'.
      destruct (step_alias t w t' w' Heff) as [Hret|(Hal' & Hsome & Hlock')];
        [by rewrite Hret in Ha2|].
      rewrite Ha2 in Hal'. symmetry in Hal'.
      destruct (Hown_class l2 Hal') as (d & Hd & Hdc).
      destruct (step_frame t w t' w' l2 Heff) as (F & _ & H2 & _).
      destruct (H2 d Hd) as (d' & Hd' & _).
      assert (Hpre : is_Some (alias (t_pc t)) ->
                counts_ok d /\ sortable (t_class t) d
                /\ progress d = iterations_done (t_pc t)).
      { intros [l Hl]. destruct (Hal tid t l Ht Hl) as (_ & d0 & Hd0 & _ & Hrest).
        assert (Some l = Some l2) as [= ->].
        { rewrite <- Hl, <- Hal'. unfold own. by destruct (t_pc t). }
        congruence. }
      rewrite Hcls in Hdc.
      destruct (step_own_counts t w t' w' l2 d d' Heff Ha2 Hd Hd' Hdc Hpre)
        as (R1 & R2 & R3 & R4).
      rewrite <- Hcls in R1, R3.
      split; [|by exists d'].
      rewrite <- Hcls in Hlock'. destruct Hlock' as [|[[l Hl] ->]]; [done|].
      destruct (Hal tid t l Ht Hl) as (Hlk0 & _). by rewrite <- Hcls in Hlk0.
    + (* another thread *)
      destruct (Hal tid2 t2 l2 Ht2 Ha2) as (Hlock2 & d2 & Hd2 & Hc2 & Hco & Hso & Hpr).
      destruct (Hother tid2 t2 l2 ltac:(congruence) Ht2 Ha2) as (Hno & Hsame).
      split.
      { destruct (decide (t_class t2 = c)) as [Heq|Hneq].
        - by rewrite Hsame.
        - by rewrite Hlk. }
      destruct (step_frame t w t' w' l2 Heff) as (F & _ & H2 & Hclass & Hrest).
      destruct (H2 d2 Hd2) as (d' & Hd' & Hcore).
      destruct (Hrest Hno d2) as (P1 & P2 & P3 & _).
      destruct (core_props (t_class t2) _ _ Hcore) as (_ & Hp & Hcl2 & Hco' & Hso').
      exists d'. split; [done|]. split.
      { rewrite Hcl2. rewrite <- Hcls in Hclass.
        destruct (Hclass d2) as [->|[Heq ->]]; [done|].
        destruct (Hst c) as (dc & Hdc & Hcc). congruence. }
      split; [apply Hco'; unfold counts_ok; by rewrite P1, P2, P3|].
      split; [apply Hso'; unfold sortable; by rewrite P3|].
      congruence.
  - (* one running thread for each class *)
    intros tid1 tid2 t1 t2 H1 H2 A1 A2 Hsame.
    apply list_lookup_insert_Some in H1 as [(<- & <- & Hlen1)|(Hne1 & H1)];
      apply list_lookup_insert_Some in H2 as [(E2 & <- & Hlen2)|(Hne2 & H2)];
      try done.
    + (* the thread that stepped against another *)
      exfalso. destruct A2 as [l2 A2].
      destruct (Hother tid2 t2 l2 ltac:(done) H2 A2) as (Hno & _).
      destruct (Hal tid2 t2 l2 H2 A2) as (Hlock2 & _).
      destruct (step_alias t w t' w' Heff) as [Hret|(Hal' & [lo Hlo] & _)].
      { rewrite Hret in A1. by destruct A1. }
      unfold own in Hlo. destruct (t_pc t) as [|l|l todo i|] eqn:Hpc; try done.
      * rewrite <- Hcls, <- Hcl', Hsame, Hlock2 in Hlo. done.
      * apply Hne2. eapply (Hsi tid tid2 t t2); eauto.
        -- rewrite Hpc. by eexists.
        -- congruence.
      * apply Hne2. eapply (Hsi tid tid2 t t2); eauto.
        -- rewrite Hpc. by eexists.
        -- congruence.
    + exfalso. destruct A1 as [l1 A1].
      destruct (Hal tid1 t1 l1 H1 A1) as (Hlock1 & _).
      destruct (step_alias t w t' w' Heff) as [Hret|(Hal' & [lo Hlo] & _)].
      { rewrite Hret in A2. by destruct A2. }
      unfold own in Hlo. destruct (t_pc t) as [|l|l todo i|] eqn:Hpc; try done.
      * rewrite <- Hcls, <- Hcl', <- Hsame, Hlock1 in Hlo. done.
      * apply Hne1. eapply (Hsi tid tid1 t t1); eauto.
        -- rewrite Hpc. by eexists.
        -- congruence.
      * apply Hne1. eapply (Hsi tid tid1 t t1); eauto.
        -- rewrite Hpc. by eexists.
        -- congruence.
    + by eapply Hsi.
  - (* a published 'running' has its thread *)
    intros c0 d' Hd' Hrun. rewrite HS in Hd' |- *.
    destruct (step_frame t w t' w' (STATE w c0) Heff) as (F & H1 & _ & _ & Hrest).
    destruct (H1 d' Hd') as (d & Hd & Hcore).
    destruct (decide (own t w = Some (STATE w c0))) as [Hown|Hown].
    + (* the step rewrote the published dictionary of its own class *)
      assert (c0 = c) as ->.
      { destruct (Hown_class _ Hown) as (d1 & Hd1 & Hc1).
        destruct (Hst c0) as (d2 & Hd2 & Hc2). congruence. }
      destruct (step_alias t w t' w' Heff) as [Hret|(Hal' & _ & _)].
      * exfalso. rewrite Hcls in Hown, Hd'.
        by apply (step_returned_status t w t' w' d' Heff Hret Hown Hd').
      * exists tid, t'. split; [|split; [done|congruence]].
        apply list_lookup_insert_eq. by apply lookup_lt_Some in Ht.
    + destruct (Hrest Hown d) as (_ & _ & _ & Hstatus).
      destruct (core_props c0 _ _ Hcore) as (Hs & _).
      assert (Hrun0 : status d = "running").
      { destruct Hstatus as [<-|[_ Herr]]; congruence. }
      destruct (Hru c0 d Hd Hrun0) as (tid0 & t0 & Ht0 & Hc0 & Ha0).
      destruct (decide (tid0 = tid)) as [->|Hne].
      * exfalso. apply Hown. assert (t0 = t) as -> by congruence.
        unfold own. by destruct (t_pc t).
      * exists tid0, t0. split; [|done]. by rewrite list_lookup_insert_ne.
Qed.

End StepPreservation.


(** ** Every run keeps the invariant *)

Lemma invariant_run E evs s : invariant s -> invariant (run E evs s).
Proof.
  revert s. induction evs as [|ev evs IH]; intros s Hs; [exact Hs|].
  cbn. apply IH. destruct ev; [by apply invariant_start|by apply invariant_step].
Qed.

Lemma invariant_reachable E evs : invariant (run E evs initial_system).
Proof. apply invariant_run, invariant_initial. Qed.

(** ** Sorting the results *)

Lemma keyed_total key rs :
  Forall (fun res => exists q, sort_key key res = Ok q) rs ->
  exists krs, keyed key rs = Ok krs.
Proof.
  induction 1 as [|r rs [q Hq] _ [krs IH]]; cbn; [by eexists|].
  rewrite Hq, IH. by eexists.
Qed.

Lemma keyed_length key rs krs : keyed key rs = Ok krs -> length krs = length rs.
Proof.
  revert krs. induction rs as [|r rs IH]; cbn; intros krs H; [by simplify_eq|].
  destruct (sort_key key r); [|done]. destruct (keyed key rs) as [krs'|]; [|done].
  simplify_eq. cbn. f_equal. by apply IH.
Qed.

Lemma insert_sorted_length reverse x l :
  length (insert_sorted reverse x l) = S (length l).
Proof.
  induction l as [|y l IH]; cbn; [done|].
  destruct (negb _); cbn; [done|]. by rewrite IH.
Qed.

(** ** The counters of a running loop *)

(** C10: whatever requests and thread steps came before, a thread that
    stands between two iterations of its symbol loop, [i] of them done,
    works on a dictionary of its own class (weekly or fundamental) in
    which progress = i, success + failed = progress, and matched is the
    number of accumulated results, hence at most success. *)
Theorem loop_counters_invariant (E : env) (evs : list event) (tid : nat)
    (t : thread) (l : nat) (todo : list stock) (i : nat) :
  pool (run E evs initial_system) !! tid = Some t ->
  t_pc t = InLoop l todo i ->
  exists d,
    heap (globals (run E evs initial_system)) !! l = Some d /\
    dict_class d = t_class t /\
    progress d = i /\
    (success (stats d) + failed (stats d))%nat = progress d /\
    matched (stats d) = length (results d) /\
    (matched (stats d) <= success (stats d))%nat.
Proof.
  intros Ht Hpc.
  destruct (inv_alias _ (invariant_reachable E evs) tid t l Ht)
    as (_ & d & Hd & Hc & (H1 & H2 & H3) & _ & Hp).
  { by rewrite Hpc. }
  exists d. rewrite Hpc in Hp. done.
Qed.

Lemma loop_counters_invariant_witness :
  exists d,
    heap (globals (run small_market three_iterations initial_system)) !! 2%nat = Some d /\
    dict_class d = tab2 /\
    progress d = 3%nat /\
    (success (stats d) + failed (stats d))%nat = progress d /\
    matched (stats d) = length (results d) /\
    (matched (stats d) <= success (stats d))%nat.
Proof.
  apply (loop_counters_invariant small_market three_iterations 0
           (Thread tab2 1 "default" false (InLoop 2 [] 3)) 2 [] 3);
    vm_compute; reflexivity.
Defined.

(** ** One iteration, and the loop to its end *)

Section Iterations.
Variable E : env.

Lemma iterate_outcome t w l row todo i r w1 :
  t_pc t = InLoop l (row :: todo) i ->
  screen E t row (announced l row i w) = (Ok r, w1) ->
  thread_step E t w
  = (at_pc (InLoop l todo (S i)) t,
     set_heap (alter (tally (failing (t_class t)) (fst r) (snd r)) l (heap w1)) w1).
Proof.
  intros Hpc Hs.
  unfold thread_step, guarded, body, run_task_tab1_body, run_task_tab2_body.
  unfold screen, announced in Hs. rewrite Hpc. destruct w as [h S L H].
  destruct (t_class t); run_M; unfold set_heap in *;
    cbn -[screen_stock_tab1 screen_stock_tab2] in *; rewrite Hs; reflexivity.
Qed.

Lemma screen_cores t row w r w1 :
  screen E t row w = (Ok r, w1) -> cores w1 = cores w.
Proof.
  unfold screen. destruct (t_class t).
  - destruct (TAB1_MODES !! t_mode t) as [params|] eqn:Hm.
    + destruct (screen_stock_tab1_effect E (fst row) (snd row) (t_mode t) (t_golden t)
                  params w Hm) as (r' & src & h & Hs & _).
      rewrite Hs. intros [= _ <-]. unfold cores. cbn [heap].
      destruct src as [s|]; cbn; [|done].
      apply cores_alter_neutral, neutral_data_source.
    + by rewrite screen_stock_tab1_unknown_mode.
  - destruct (TAB2_MODES !! t_mode t) as [params|] eqn:Hm.
    + destruct (screen_stock_tab2_effect E (fst row) (snd row) (t_mode t) params w Hm)
        as (r' & Hs & _).
      rewrite Hs. by intros [= _ <-].
    + by rewrite screen_stock_tab2_unknown_mode.
Qed.

Lemma failed_iteration s tid t l row todo i d st w1 :
  pool s !! tid = Some t ->
  t_pc t = InLoop l (row :: todo) i ->
  heap (globals s) !! l = Some d ->
  screen E t row (announced l row i (globals s)) = (Ok (None, st), w1) ->
  st ∈ failing (t_class t) ->
  exists d',
    pool (run_thread E tid s) !! tid = Some (at_pc (InLoop l todo (S i)) t) /\
    heap (globals (run_thread E tid s)) !! l = Some d' /\
    progress d' = S i /\
    failed (stats d') = (failed (stats d) + 1)%nat /\
    success (stats d') = success (stats d) /\
    matched (stats d') = matched (stats d) /\
    results d' = results d.
Proof.
  intros Ht Hpc Hd Hs Hst. unfold run_thread. rewrite Ht.
  rewrite (iterate_outcome t (globals s) l row todo i _ w1 Hpc Hs). cbn [globals pool].
  apply screen_cores in Hs.
  destruct (cores_lookup w1 (heap (announced l row i (globals s))) l Hs) as [_ H2].
  destruct (H2 (set_current_stock (fst row +:+ " " +:+ snd row) (set_progress (i + 1) d)))
    as (d1 & Hd1 & Hcore).
  { unfold announced. cbn [heap set_heap]. by rewrite !list_lookup_alter_eq, Hd. }
  apply core_of_inv in Hcore as (_ & Hp & Hstats & Hres & _).
  exists (tally (failing (t_class t)) None st d1).
  split; [apply list_lookup_insert_eq; by apply lookup_lt_Some in Ht|].
  split; [cbn [fst snd heap set_heap]; by rewrite list_lookup_alter_eq, Hd1|].
  unfold tally. cbn [truthy]. rewrite bool_decide_eq_true_2 by done.
  destruct d1, d; cbn in *. subst. repeat split; lia.
Qed.

Lemma tencent_weekly_silent symbol retries w :
  (forall retry, stock_zh_a_hist_tx E symbol retry = TxNone
                 \/ stock_zh_a_hist_tx E symbol retry = TxRaise) ->
  tencent_weekly E symbol retries w = (Ok None, w).
Proof.
  intros Hs. induction retries as [|retry rest IH]; cbn [tencent_weekly]; [done|].
  by destruct (Hs retry) as [-> | ->].
Qed.

Lemma screen_pipeline t row p w :
  pipeline E t row = Some p ->
  screen E t row w
  = try_except p (fun _ => mret (None, "error")) w.
Proof.
  unfold pipeline, screen, screen_stock_tab1, screen_stock_tab2.
  destruct (t_class t).
  - destruct (TAB1_MODES !! t_mode t); cbn; [|done]. by intros [= <-].
  - destruct (TAB2_MODES !! t_mode t); cbn; [|done]. by intros [= <-].
Qed.

Lemma raising_pipeline_error t row p w e :
  pipeline E t row = Some p -> fst (p w) = Raise e ->
  screen E t row w = (Ok (None, "error"), snd (p w)).
Proof.
  intros Hp He. rewrite (screen_pipeline t row p w Hp). unfold try_except.
  destruct (p w) as [[r|e'] w1]; cbn in *; [done|reflexivity].
Qed.

Lemma fundamental_none symbol :
  no_fundamental E symbol -> fundamental E symbol [0; 1; 2]%nat = None.
Proof.
  intros H. cbn.
  destruct (H 0%nat ltac:(lia)) as [-> | ->];
    destruct (H 1%nat ltac:(lia)) as [-> | ->];
    by destruct (H 2%nat ltac:(lia)) as [-> | ->].
Qed.

Lemma Qlt_bool_above x y : y <= x -> Qlt_bool x y = false.
Proof.
  intros H. destruct (Qlt_bool x y) eqn:E1; [|done].
  apply Qlt_bool_iff in E1. by apply Qlt_not_le in E1.
Qed.

Lemma Qle_bool_above x y : y < x -> Qle_bool x y = false.
Proof.
  intros H. destruct (Qle_bool x y) eqn:E1; [|done].
  apply Qle_bool_iff in E1. by apply Qlt_not_le in H.
Qed.

Lemma unavailable_data_status t row p w :
  pipeline E t row = Some p -> data_unavailable E t (fst row) w ->
  exists st w1, screen E t row w = (Ok (None, st), w1) /\ st ∈ failing (t_class t).
Proof.
  intros Hp Hu. rewrite (screen_pipeline t row p w Hp).
  unfold pipeline in Hp. unfold data_unavailable in Hu. unfold try_except.
  destruct (t_class t); cbn [failing].
  - destruct (TAB1_MODES !! t_mode t) as [params|]; [|done]. cbn in Hp.
    injection Hp as <-. destruct Hu as (o & Ho & Hshort).
    unfold weekly_pipeline. run_M.
    destruct (get_weekly_data_tab1 E row.1 w) as [o' w1]. cbn in Ho. subst o'.
    destruct o as [df|].
    + specialize (Hshort df eq_refl). apply Nat.ltb_lt in Hshort. rewrite Hshort.
      exists "no_data", w1. split; [done|]. apply list_elem_of_here.
    + exists "no_data", w1. split; [done|]. apply list_elem_of_here.
  - destruct (TAB2_MODES !! t_mode t) as [params|]; [|done]. cbn in Hp.
    injection Hp as <-. unfold fundamental_pipeline.
    destruct Hu as [Hno|(params' & [= <-] & cap & pb & beta & Hf & H1 & H2 & H3 & Hb & H4 & Hm)].
    + rewrite (fundamental_none _ Hno).
      exists "no_fundamental", w. split; [done|]. apply list_elem_of_here.
    + rewrite Hf, Hb.
      rewrite (Qle_bool_above _ _ H1), (Qle_bool_above _ _ H2),
        (Qlt_bool_above _ _ H3), (Qle_bool_above _ _ H4). cbn [orb].
      exists "no_monthly_data", w. split; [|apply list_elem_of_further, list_elem_of_here].
      destruct (get_monthly_data_tab2 E row.1) as [df|]; [|done].
      specialize (Hm df eq_refl). apply Nat.ltb_lt in Hm. by rewrite Hm.
Qed.

Lemma silent_source_no_weekly_data symbol w :
  source_silent E symbol -> no_weekly_data E symbol w.
Proof.
  intros [Hem Htx]. exists None. split; [|done].
  unfold get_weekly_data_tab1. run_M. cbn -[tencent_weekly].
  destruct (bool_decide (DATA_SOURCE_HEALTH w ≠ Some false)).
  - destruct (stock_zh_a_hist_weekly E symbol) as [e| |df] eqn:Hr;
      [| |by destruct (Hem df)]; cbn -[tencent_weekly];
      by rewrite tencent_weekly_silent.
  - cbn -[tencent_weekly]. by rewrite tencent_weekly_silent.
Qed.

Lemma loop_runs_out tid todo :
  forall s t l i,
    invariant s -> pool s !! tid = Some t -> t_pc t = InLoop l todo i ->
    known_mode (t_class t) (t_mode t) ->
    exists t' d',
      pool (run E (replicate (S (length todo)) (Sched tid)) s) !! tid = Some t' /\
      t_pc t' = Returned /\
      TASK_LOCKS (globals (run E (replicate (S (length todo)) (Sched tid)) s))
        (t_class t) = false /\
      heap (globals (run E (replicate (S (length todo)) (Sched tid)) s)) !! l = Some d' /\
      status d' = "completed" /\ progress d' = (i + length todo)%nat /\
      (success (stats d') + failed (stats d'))%nat = progress d'.
Proof.
  induction todo as [|row todo IH]; intros s t l i Hinv Ht Hpc Hk.
  - cbn [length replicate run foldl sys_step].
    destruct (inv_alias _ Hinv tid t l Ht ltac:(by rewrite Hpc))
      as (_ & d & Hd & _ & Hco & Hso & Hp).
    rewrite Hpc in Hp. cbn in Hp.
    unfold run_thread. rewrite Ht.
    pose proof (thread_step_spec E t (globals s)) as (_ & Hat & _ & Heff).
    destruct (thread_step E t (globals s)) as [t' w'] eqn:Hstep. cbn [fst snd] in *.
    cbn [globals pool].
    destruct Heff as [Hp0 _ _ _|Hp0 _ _ _ _|Hp0 _ _ _ _|lo stocks Hp0 _ _ _
                     |lo row todo i0 r Hp0 _ _ _ _ _|lo i0 d0 rs Hp0 Hp' Hl Hd0 Hs Hc
                     |lo f Ha _ _ _ Hno _ _]; try congruence.
    + rewrite Hpc in Hp0. injection Hp0 as <- <-.
      assert (d0 = d) as -> by congruence.
      destruct (cores_lookup w' _ l Hc) as [_ H2].
      destruct (H2 (set_status "completed" (set_results rs d))) as (d' & Hd' & Hcore).
      { by rewrite list_lookup_alter_eq, Hd. }
      apply core_of_inv in Hcore as (Hst & Hpr & Hsta & Hres & _).
      exists t', d'.
      split; [apply list_lookup_insert_eq; by apply lookup_lt_Some in Ht|].
      split; [done|]. split; [done|]. split; [done|].
      split; [rewrite Hst; by destruct d|].
      split; [rewrite Hpr, Nat.add_0_r, <- Hp; by destruct d|].
      destruct Hco as (C1 & _). rewrite Hpr, Hsta. by destruct d.
    + rewrite Hpc in Ha. injection Ha as <-.
      destruct (Hno i d Hpc Hd) as [e He].
      destruct (keyed_total _ _ Hso) as [krs Hkrs].
      congruence.
  - cbn [length replicate run foldl sys_step].
    change (foldl (sys_step E) ?s0 ?evs) with (run E evs s0).
    pose proof (invariant_step E tid s Hinv) as Hinv'.
    assert (Ht1 : pool (run_thread E tid s) !! tid
                  = Some (at_pc (InLoop l todo (S i)) t)).
    { unfold run_thread. rewrite Ht.
      pose proof (thread_step_spec E t (globals s)) as (_ & Hat & _ & Heff).
      destruct (thread_step E t (globals s)) as [t' w'] eqn:Hstep. cbn [fst snd] in *.
      cbn [pool]. rewrite list_lookup_insert_eq by (by apply lookup_lt_Some in Ht).
      f_equal. rewrite Hat. f_equal.
      destruct Heff as [Hp0 _ _ _|Hp0 _ _ _ _|Hp0 _ _ _ _|lo stocks Hp0 _ _ _
                       |lo row0 todo0 i0 r Hp0 Hp' _ _ _ _|lo i0 d0 rs Hp0 _ _ _ _ _
                       |lo f Ha _ _ Hno _ _ _]; try congruence.
      rewrite Hpc in Ha. injection Ha as <-. by destruct (Hno row todo i Hpc). }
    destruct (IH (run_thread E tid s) _ l (S i) Hinv' Ht1 eq_refl Hk)
      as (t' & d' & H1 & H2 & H3 & H4 & H5 & H6 & H7).
    exists t', d'. repeat (split; [done|]). split; [|done]. rewrite H6. cbn. lia.
Qed.

End Iterations.

(** The run of the five symbols, let run to its end. *)
Lemma five_symbol_run_report :
  exists d,
    status_route "tab1" (run five_symbols five_symbol_run initial_system) = Some d /\
    status d = "completed" /\ progress d = 5%nat /\ total d = 5%nat /\
    stats d = Stats 4 1 1 /\
    record_get "代码" <$> results d = [Some (VStr "600001")].
Proof.
  let v := eval vm_compute in
             (status_route "tab1" (run five_symbols five_symbol_run initial_system)) in
  match v with
  | Some ?d => exists d; split; [vm_cast_no_check (eq_refl v)|vm_compute; done]
  end.
Qed.

(** C9, amended.  In a job whose mode is registered, a symbol whose
    data are not there (weekly class: no frame, or one of fewer than 100
    bars, from either source; fundamental class: no valuation facts in
    three attempts, or no monthly frame of 50 bars for a symbol the
    filters let through), or on which the try block of the screener
    raises an exception, adds exactly one to failed, adds nothing to the
    results and leaves the thread at the next symbol; a symbol neither
    weekly source has a frame for is such a case; from any point of its
    loop such a job runs to 'completed' with every remaining symbol
    counted; the run of five symbols with one failure completes with
    four successes, one failure and no result for the failed symbol. *)
Theorem symbol_failure_is_counted_and_skipped :
  (forall E s tid t l row todo i d p,
     pool s !! tid = Some t ->
     t_pc t = InLoop l (row :: todo) i ->
     heap (globals s) !! l = Some d ->
     pipeline E t row = Some p ->
     data_unavailable E t (fst row) (announced l row i (globals s))
     \/ (exists e, fst (p (announced l row i (globals s))) = Raise e) ->
     exists d',
       pool (run_thread E tid s) !! tid = Some (at_pc (InLoop l todo (S i)) t) /\
       heap (globals (run_thread E tid s)) !! l = Some d' /\
       progress d' = S i /\
       failed (stats d') = (failed (stats d) + 1)%nat /\
       success (stats d') = success (stats d) /\
       matched (stats d') = matched (stats d) /\
       results d' = results d) /\
  (forall E symbol w, source_silent E symbol -> no_weekly_data E symbol w) /\
  (forall E evs tid t l todo i,
     pool (run E evs initial_system) !! tid = Some t ->
     t_pc t = InLoop l todo i ->
     known_mode (t_class t) (t_mode t) ->
     exists t' d',
       pool (run E (replicate (S (length todo)) (Sched tid)) (run E evs initial_system))
         !! tid = Some t' /\
       t_pc t' = Returned /\
       heap (globals (run E (replicate (S (length todo)) (Sched tid))
                        (run E evs initial_system))) !! l = Some d' /\
       status d' = "completed" /\
       progress d' = (i + length todo)%nat /\
       (success (stats d') + failed (stats d'))%nat = progress d') /\
  (exists d,
     status_route "tab1" (run five_symbols five_symbol_run initial_system) = Some d /\
     status d = "completed" /\ progress d = 5%nat /\ total d = 5%nat /\
     stats d = Stats 4 1 1 /\
     record_get "代码" <$> results d = [Some (VStr "600001")]).
Proof.
  split; [|split; [|split]].
  - intros E s tid t l row todo i d p Ht Hpc Hd Hp [Hu|[e He]].
    + destruct (unavailable_data_status E t row p _ Hp Hu) as (st & w1 & Hs & Hst).
      by apply (failed_iteration E s tid t l row todo i d st w1).
    + apply (failed_iteration E s tid t l row todo i d "error" _ Ht Hpc Hd
               (raising_pipeline_error E t row p _ e Hp He)).
      destruct (t_class t); cbn; set_solver.
  - intros E symbol w. apply silent_source_no_weekly_data.
  - intros E evs tid t l todo i Ht Hpc Hk.
    destruct (loop_runs_out E tid todo _ t l i (invariant_reachable E evs) Ht Hpc Hk)
      as (t' & d' & H1 & H2 & _ & H4 & H5 & H6 & H7).
    exists t', d'. done.
  - exact five_symbol_run_report.
Qed.

Lemma symbol_failure_is_counted_and_skipped_witness :
  fst (weekly_pipeline garbled_market
         default_params
         "600001" "甲" false
         (announced 2 ("600001", "甲") 0 (globals before_first_symbol)))
  = Raise "No numeric types to aggregate" /\
  exists d',
    heap (globals (run_thread garbled_market 0 before_first_symbol)) !! 2%nat = Some d' /\
    progress d' = 1%nat /\ failed (stats d') = 1%nat /\ success (stats d') = 0%nat /\
    matched (stats d') = 0%nat /\ results d' = [].
Proof.
  assert (He : fst (weekly_pipeline garbled_market
                      default_params
                      "600001" "甲" false
                      (announced 2 ("600001", "甲") 0 (globals before_first_symbol)))
               = Raise "No numeric types to aggregate") by (vm_compute; reflexivity).
  split; [exact He|].
  destruct (proj1 symbol_failure_is_counted_and_skipped garbled_market
              before_first_symbol 0%nat
              (Thread tab1 1 "default" false
                 (InLoop 2 [("600001", "甲"); ("000002", "乙"); ("300003", "丙")] 0))
              2%nat ("600001", "甲") [("000002", "乙"); ("300003", "丙")] 0%nat
              (JobState "running" 0 3 "" "自动选择" [] (Stats 0 0 0)
                 "获取股票列表..." "default" (Some false) None)
              (weekly_pipeline garbled_market default_params "600001" "甲" false))
    as (d' & _ & Hd' & Hp & Hf & Hs & Hm & Hr);
    [vm_compute; reflexivity|reflexivity|vm_compute; reflexivity|reflexivity
    |right; eexists; exact He|].
  exists d'. done.
Defined.

(** C9 as stated fails in two ways.  A job is accepted with any mode:
    with one that is not registered the lookup raises in the screener
    before its try block, and the five-symbol job ends at its first
    symbol with nothing counted as failed and four symbols never
    screened.  In the fundamental class a symbol whose beta cannot be
    computed is reported 'beta_filter', which the loop counts under
    success. *)
Lemma symbol_failure_is_not_always_counted :
  (exists d,
     status_route "tab1"
       (run five_symbols (Request "tab1" "turbo" 1 false :: replicate 8 (Sched 0%nat))
          initial_system) = Some d /\
     status d = "error" /\ total d = 5%nat /\ progress d = 1%nat /\
     stats d = Stats 0 0 0) /\
  calculate_beta no_beta_market "600001" = None /\
  fst (screen_stock_tab2 no_beta_market "600001" "甲" "default" initial_world)
  = Ok (None, "beta_filter") /\
  (exists d,
     status_route "tab2"
       (run no_beta_market [Request "tab2" "default" 1 false; Sched 0; Sched 0; Sched 0]%nat
          initial_system) = Some d /\
     status d = "running" /\ progress d = 1%nat /\ stats d = Stats 1 0 0).
Proof.
  split; [|split; [|split]].
  - eexists. split; [vm_compute; reflexivity|done].
  - reflexivity.
  - vm_compute; reflexivity.
  - eexists. split; [vm_compute; reflexivity|done].
Qed.


(** ** A start request and the first step of its thread *)


Lemma start_system tab c mode ratio golden s :
  class_of tab = Some c ->
  snd (start tab mode ratio golden s)
  = System (set_STATE c (length (heap (globals s)))
              (set_heap (heap (globals s) ++ [fresh_state c mode golden]) (globals s)))
           (pool s ++ [spawned c mode ratio golden AtEntry]).
Proof. intros Hc. unfold start. rewrite Hc. reflexivity. Qed.

Section FirstStep.
Variable E : env.

Lemma run_thread_at tid s t :
  pool s !! tid = Some t ->
  run_thread E tid s
  = System (snd (thread_step E t (globals s)))
           (<[tid := fst (thread_step E t (globals s))]> (pool s)).
Proof.
  intros Ht. unfold run_thread. rewrite Ht. by destruct (thread_step E t (globals s)).
Qed.

Lemma enter_step t w :
  t_pc t = AtEntry -> TASK_LOCKS w (t_class t) = false ->
  thread_step E t w
  = (at_pc (Resolving (STATE w (t_class t))) t,
     set_heap (alter (entered t) (STATE w (t_class t)) (heap w))
       (set_lock (t_class t) true w)).
Proof.
  intros Hpc Hlock. unfold thread_step, guarded. rewrite Hpc, Hlock.
  by rewrite body_enter.
Qed.

Lemma busy_step t w :
  t_pc t = AtEntry -> TASK_LOCKS w (t_class t) = true ->
  thread_step E t w
  = (at_pc Returned t,
     set_heap (alter (fun d => set_message (busy_message (t_class t))
                                 (set_status "error" d))
                 (STATE w (t_class t)) (heap w)) w).
Proof.
  intros Hpc Hlock. unfold thread_step. rewrite Hpc, Hlock. f_equal.
  unfold on_exception. destruct w as [h S L H]. unfold set_heap. cbn.
  f_equal. symmetry.
  apply (alter_compose (set_message (busy_message (t_class t))) (set_status "error")).
Qed.

(** A thread the scheduler does not pick stands where it stood. *)
Lemma run_keeps_waiting evs tid t :
  forall s, pool s !! tid = Some t -> Sched tid ∉ evs ->
            pool (run E evs s) !! tid = Some t.
Proof.
  induction evs as [|ev evs IH]; intros s Ht Hno; [exact Ht|].
  cbn [run foldl]. apply IH; [|intros H; apply Hno; by right].
  destruct ev as [tab mode ratio golden|tid']; cbn [sys_step].
  - unfold start. cbn [snd]. destruct (class_of tab); [|exact Ht].
    cbn [pool]. by apply lookup_app_l_Some.
  - unfold run_thread. destruct (pool s !! tid') as [t'|] eqn:Ht'; [|exact Ht].
    destruct (thread_step E t' (globals s)) as [t'' w']. cbn [pool].
    rewrite list_lookup_insert_ne; [exact Ht|].
    intros ->. apply Hno. by left.
Qed.

End FirstStep.

(** C2 (as the code has it): a start request that arrives while the
    published state of its class has status 'running' is answered
    {'ok': True} and publishes a fresh idle dictionary; the dictionary of
    the running job keeps all of its fields, and the lock of the class is
    held.  The request is not queued: whatever requests and steps of
    other threads come first, the thread it has spawned waits at its
    entry, and at its first step it tries the lock once.  The lock is
    held as long as a job of the class is under way; if it is held at
    that step, the thread returns without processing a symbol, no lock,
    no binding of STATE and no other thread changes, every dictionary
    keeps its progress counter, stats and results, and the dictionary
    then published for the class gets status 'error' and the
    already-running message.  If the lock has been released by then, the
    thread takes it and starts a job of its own. *)
Theorem start_while_running_is_rejected (E : env) (evs : list event)
    (tab : string) (c : job_class) (mode : string) (ratio : Q) (golden_only : bool)
    (d : job_state) :
  class_of tab = Some c ->
  status_route tab (run E evs initial_system) = Some d ->
  status d = "running" ->
  let s := run E evs initial_system in
  let new := length (pool s) in
  let s1 := snd (start tab mode ratio golden_only s) in
  fst (start tab mode ratio golden_only s) = [("ok", VBool true)] /\
  status_route tab s1 = Some (fresh_state c mode golden_only) /\
  (forall l d0, heap (globals s) !! l = Some d0 -> heap (globals s1) !! l = Some d0) /\
  (exists tid t l, pool s1 !! tid = Some t /\ t_class t = c /\
                   alias (t_pc t) = Some l /\ heap (globals s1) !! l = Some d) /\
  TASK_LOCKS (globals s1) c = true /\
  forall evs', Sched new ∉ evs' ->
    let s2 := run E evs' s1 in
    let s3 := run_thread E new s2 in
    pool s2 !! new = Some (spawned c mode ratio golden_only AtEntry) /\
    ((exists tid t, pool s2 !! tid = Some t /\ t_class t = c
                    /\ is_Some (alias (t_pc t))) ->
     TASK_LOCKS (globals s2) c = true) /\
    (TASK_LOCKS (globals s2) c = true ->
     pool s3 = <[new := spawned c mode ratio golden_only Returned]> (pool s2) /\
     TASK_LOCKS (globals s3) = TASK_LOCKS (globals s2) /\
     STATE (globals s3) = STATE (globals s2) /\
     (forall l d0, heap (globals s2) !! l = Some d0 ->
        exists d1, heap (globals s3) !! l = Some d1 /\
                   progress d1 = progress d0 /\ stats d1 = stats d0 /\
                   results d1 = results d0 /\
                   (l <> STATE (globals s2) c -> d1 = d0)) /\
     (exists d1, status_route tab s3 = Some d1 /\
                 status d1 = "error" /\ message d1 = busy_message c)) /\
    (TASK_LOCKS (globals s2) c = false ->
     pool s3 !! new
     = Some (spawned c mode ratio golden_only (Resolving (STATE (globals s2) c))) /\
     TASK_LOCKS (globals s3) c = true /\
     (exists d1, status_route tab s3 = Some d1 /\ status d1 = "running")).
Proof.
  intros Hc Hroute Hrun s new s1.
  pose proof (invariant_reachable E evs) as Hinv. fold s in Hinv.
  unfold status_route in Hroute. rewrite Hc in Hroute. cbn in Hroute. fold s in Hroute.
  destruct (inv_running _ Hinv c d Hroute Hrun) as (tid0 & t0 & Ht0 & Hc0 & Ha0).
  destruct (inv_alias _ Hinv tid0 t0 _ Ht0 Ha0) as (Hlock & _).
  rewrite Hc0 in Hlock.
  assert (Hs1 : s1 = System (set_STATE c (length (heap (globals s)))
                       (set_heap (heap (globals s) ++ [fresh_state c mode golden_only])
                          (globals s)))
                    (pool s ++ [spawned c mode ratio golden_only AtEntry])).
  { subst s1. by apply start_system. }
  split; [reflexivity|].
  split.
  { rewrite Hs1. unfold status_route. rewrite Hc. cbn. rewrite decide_True by done.
    by apply list_lookup_middle. }
  split; [intros l d0 Hd0; rewrite Hs1; by apply lookup_app_l_Some|].
  split.
  { exists tid0, t0, (STATE (globals s) c). rewrite Hs1. cbn [pool globals heap set_heap set_STATE].
    split; [by apply lookup_app_l_Some|]. split; [done|]. split; [done|].
    by apply lookup_app_l_Some. }
  split; [by rewrite Hs1|].
  intros evs' Hno s2 s3.
  assert (Hinv2 : invariant s2).
  { apply invariant_run. by apply invariant_start. }
  assert (Hnew : pool s2 !! new = Some (spawned c mode ratio golden_only AtEntry)).
  { apply run_keeps_waiting; [|exact Hno]. rewrite Hs1. by apply list_lookup_middle. }
  split; [exact Hnew|].
  split.
  { intros (tid & t & Ht & Hct & Hal). destruct Hal as [l Hal].
    destruct (inv_alias _ Hinv2 tid t l Ht Hal) as [Hl _]. by rewrite Hct in Hl. }
  destruct (inv_state _ Hinv2 c) as (dp & Hdp & _).
  split.
  - intros Hheld. subst s3.
    rewrite (run_thread_at E _ _ _ Hnew), busy_step by done.
    cbn [fst snd pool globals heap set_heap TASK_LOCKS STATE spawned t_class at_pc
         t_ratio t_mode t_golden].
    split; [by destruct c|]. split; [done|]. split; [done|].
    split.
    + intros l d0 Hd0. destruct (decide (l = STATE (globals s2) c)) as [->|Hne].
      * eexists. rewrite list_lookup_alter_eq, Hd0. cbn. split; [reflexivity|].
        by destruct d0.
      * exists d0. by rewrite list_lookup_alter_ne.
    + unfold status_route. rewrite Hc. cbn.
      rewrite list_lookup_alter_eq, Hdp. cbn. eexists. split; [reflexivity|].
      by destruct dp.
  - intros Hfree. subst s3.
    rewrite (run_thread_at E _ _ _ Hnew), enter_step by done.
    cbn [fst snd pool globals heap set_heap TASK_LOCKS STATE spawned t_class at_pc
         t_ratio t_mode t_golden set_lock].
    split.
    { rewrite list_lookup_insert_eq by (by apply lookup_lt_Some in Hnew).
      by destruct c. }
    split; [by rewrite decide_True|].
    unfold status_route. rewrite Hc. cbn.
    rewrite list_lookup_alter_eq, Hdp. cbn. eexists. split; [reflexivity|].
    unfold entered. cbn. by destruct c, dp.
Qed.

Lemma start_while_running_is_rejected_witness :
  status_route "tab1" mid_run
  = Some (JobState "running" 1 3 "600001 甲" "自动选择" [] (Stats 0 1 0)
            "获取股票列表..." "default" (Some false) None) /\
  fst (start "tab1" "default" 1 false mid_run) = [("ok", VBool true)] /\
  TASK_LOCKS (globals (run small_market [Sched 0%nat]
                         (snd (start "tab1" "default" 1 false mid_run)))) tab1 = true /\
  exists d1,
    status_route "tab1"
      (run_thread small_market 1
         (run small_market [Sched 0%nat] (snd (start "tab1" "default" 1 false mid_run))))
    = Some d1 /\
    status d1 = "error" /\ message d1 = busy_message tab1.
Proof.
  assert (Hroute : status_route "tab1" mid_run
                   = Some (JobState "running" 1 3 "600001 甲" "自动选择" []
                             (Stats 0 1 0) "获取股票列表..." "default" (Some false) None))
    by (vm_compute; reflexivity).
  assert (Hheld : TASK_LOCKS (globals (run small_market [Sched 0%nat]
                     (snd (start "tab1" "default" 1 false mid_run)))) tab1 = true)
    by (vm_compute; reflexivity).
  destruct (start_while_running_is_rejected small_market
              [Request "tab1" "default" 1 false; Sched 0; Sched 0; Sched 0]%nat
              "tab1" tab1 "default" 1 false _ eq_refl Hroute eq_refl)
    as (H1 & _ & _ & _ & _ & Hlater).
  destruct (Hlater [Sched 0%nat]) as (_ & _ & Hrej & _).
  { intros H. apply list_elem_of_singleton in H. discriminate. }
  destruct (Hrej Hheld) as (_ & _ & _ & _ & H5).
  split; [exact Hroute|]. split; [exact H1|]. split; [exact Hheld|exact H5].
Defined.

(** The request of C2 on a running job: the answer is {'ok': True}, and
    the progress the status route reports falls from 1 to 0. *)
Lemma start_while_running_answers_ok :
  (exists d, status_route "tab1" mid_run = Some d /\
             status d = "running" /\ progress d = 1%nat) /\
  fst (start "tab1" "default" 1 false mid_run) = [("ok", VBool true)] /\
  (exists d, status_route "tab1" (snd (start "tab1" "default" 1 false mid_run)) = Some d /\
             status d = "idle" /\ progress d = 0%nat).
Proof.
  split; [|split]; [eexists; split; [vm_compute; reflexivity|done]|reflexivity
                   |eexists; split; [vm_compute; reflexivity|done]].
Qed.

(** ** A job started with a mode that is not registered *)

Section UnknownMode.
Variable E : env.




End UnknownMode.

Section UnknownModeJob.
Variable E : env.




End UnknownModeJob.



